(** * Neuro-Ink: handwriting feature extraction

    A shallow embedding of the feature extractors of
    [training/02_feature_engineering.py] (class [FeatureEngineer]) and of
    the per-session record builder of [training/01_data_preparation.py]
    (class [DataLoader]), with the properties their specification states.

    Numbers.  Python's [int] and [float] and numpy's [float64] are embedded
    as rationals [Q]; results are compared with [==].  Sums, differences,
    products and quotients are exact, and [np.sqrt] returns the float64
    nearest to the root, as numpy does.  Where the rounding of a sum or of
    a quotient decides a property (the pressure statistics of a constant
    sample), the method is embedded a second time with every operation
    rounded to float64: [compute_pressure_features_f64].

    Division.  A quotient of numpy scalars by zero raises nothing: numpy
    warns and returns [inf], [-inf] or [nan].  The one quotient of the code
    whose divisor can be zero is [canvas_coverage]; it is computed by
    [np_divide], and the spatial record holds values of the type [number],
    which has these three values beside the finite ones.  Every other
    divisor is a clamped time delta, the length of a non-empty list, a mean
    tested positive or the literal 2, and never zero; [py_div] covers them.

    Coordinates are floats, as the data model of the specification has
    them.

    Dictionaries are [gmap]s keyed by strings; the JSON objects of a session
    whose entries have different types are records with optional fields. *)

From Stdlib Require Import QArith Qabs ZArith Lia Lqa.
From stdpp Require Import gmap strings list fin_maps.

#[local] Set Warnings "-clear-no-such-hyp".

(** ** Exceptions and the result monad *)

Inductive exn : Type :=
  | IndexError          (* list index out of range *)
  | ValueError          (* np.min / np.max of an empty sequence *)
  | DivisionByZero      (* x / 0 between Python numbers *)
  | InvalidValue.       (* np.sqrt of a negative number *)

Inductive result (A : Type) : Type :=
  | Ok (a : A)
  | Raise (e : exn).
Arguments Ok {A} a.
Arguments Raise {A} e.

#[global] Instance result_ret : MRet result := fun A a => Ok a.
#[global] Instance result_bind : MBind result := fun A B f m =>
  match m with
  | Ok a => f a
  | Raise e => Raise e
  end.

(** [for x in l: s = body x s], stopping at the first exception. *)
Fixpoint for_each {A S : Type} (body : A -> S -> result S) (l : list A) (s : S)
  : result S :=
  match l with
  | [] => Ok s
  | a :: l' => s' ← body a s; for_each body l' s'
  end.

(** [range(lo, hi)] *)
Definition range (lo hi : nat) : list nat := seq lo (hi - lo).

(** [l[i]] for an index [i >= 0]. *)
Definition index {A : Type} (l : list A) (i : nat) : result A :=
  match l !! i with
  | Some a => Ok a
  | None => Raise IndexError
  end.

(** [d.get(k, dflt)] *)
Definition get {V : Type} (k : string) (dflt : V) (d : gmap string V) : V :=
  default dflt (d !! k).

(** A dict literal [{k1: v1, ...}]; a later entry of the same key wins. *)
Definition dict {V : Type} (l : list (string * V)) : gmap string V :=
  list_to_map (reverse l).

(** [d.update(e)]: the entries of [e] override those of [d]. *)
Definition update {V : Type} (d e : gmap string V) : gmap string V := e ∪ d.

(** ** Numeric primitives *)

Definition Qltb (a b : Q) : bool := negb (Qle_bool b a).

(** [max(a, b)]: the first argument unless the second is greater. *)
Definition py_max (a b : Q) : Q := if Qltb a b then b else a.

(** [min(a, b)] as [np.min] folds it. *)
Definition py_min (a b : Q) : Q := if Qltb b a then b else a.

(** [a / b] where the divisor is never zero: a clamped time delta, the
    length of a non-empty list, a mean tested positive, the literal 2.
    (Python's own [/] raises [ZeroDivisionError] on a zero divisor.) *)
Definition py_div (a b : Q) : result Q :=
  if Qeq_bool b 0 then Raise DivisionByZero else Ok (a / b)%Q.

(** [sum(l)] *)
Definition py_sum (l : list Q) : Q := fold_left Qplus l 0%Q.

(** [len(l)] as a number. *)
Definition len {A : Type} (l : list A) : Q := inject_Z (Z.of_nat (length l)).

(** [np.mean(l)], the sum over the length, for a non-empty list. *)
Definition np_mean (l : list Q) : result Q := py_div (py_sum l) (len l).

(** *** Rounding to float64

    A float64 is [m * 2^e] with a significand [m] of 53 bits; rounding is
    to the nearest such number, ties to the even significand.  The range
    of the exponent is not bounded: overflow and subnormal numbers are not
    modelled. *)

(** [m * 2^e] as a reduced fraction. *)
Definition dyadic (m e : Z) : Q :=
  Qred (if (0 <=? e)%Z then inject_Z (m * 2 ^ e)
        else (m # Z.to_pos (2 ^ (- e)))).

(** The fraction [n / (d * 2^e)] as a numerator and a denominator, for an
    exponent of either sign. *)
Definition scaled (n d e : Z) : Z * Z :=
  if (0 <=? e)%Z then (n, d * 2 ^ e)%Z else (n * 2 ^ (- e), d)%Z.



(** The float64 nearest to the square root of [q >= 0].  The exponent [e]
    puts [q / 4^e] between [2^104] and [2^106], so that the integer root
    [s] has 53 bits; [s] or [s + 1] is chosen by comparing [q / 4^e] with
    [(s + 1/2)^2]. *)
Definition sqrt_binary64 (q : Q) : Q :=
  if Qeq_bool q 0 then 0%Q else
  let n := Qnum q in
  let d := Zpos (Qden q) in
  let l := (Z.log2 n - Z.log2 d)%Z in
  let e0 := ((l - 104) / 2)%Z in
  let '(a, b) := scaled n d (2 * e0) in
  let e := if (2 ^ 104 <=? a / b)%Z then e0 else (e0 - 1)%Z in
  let '(a, b) := scaled n d (2 * e) in
  let s := Z.sqrt (a / b) in
  let m := match (4 * a ?= (4 * s * s + 4 * s + 1) * b)%Z with
           | Lt => s
           | Gt => (s + 1)%Z
           | Eq => if Z.even s then s else (s + 1)%Z
           end in
  dyadic m e.

(** [np.sqrt(q)]: the float64 nearest to the root, so exact whenever the
    root is a float64; [nan] (here an exception) for a negative number. *)
Definition np_sqrt (q : Q) : result Q :=
  if Qltb q 0 then Raise InvalidValue else Ok (sqrt_binary64 (Qred q)).

(** [np.std(l)]: the root of the mean squared deviation from the mean. *)
Definition np_std (l : list Q) : result Q :=
  m ← np_mean l;
  v ← np_mean (map (fun x => (x - m) ^ 2)%Q l);
  np_sqrt v.

(** [np.max(l)] and [np.min(l)] *)
Definition np_max (l : list Q) : result Q :=
  match l with
  | [] => Raise ValueError
  | x :: l' => Ok (fold_left py_max l' x)
  end.

Definition np_min (l : list Q) : result Q :=
  match l with
  | [] => Raise ValueError
  | x :: l' => Ok (fold_left py_min l' x)
  end.

(** A numpy scalar: a finite number, or one of [inf], [-inf], [nan]. *)
Inductive number : Type :=
  | Finite (q : Q)
  | PosInf
  | NegInf
  | NaN.

(** [a / b] for a numpy scalar [a]: a zero divisor raises nothing, numpy
    warns and returns [nan] for [0 / 0] and an infinity of the sign of [a]
    otherwise. *)
Definition np_divide (a b : Q) : number :=
  if Qeq_bool b 0 then
    if Qeq_bool a 0 then NaN else if Qltb 0 a then PosInf else NegInf
  else Finite (a / b)%Q.

(** [f(l) if l else 0] *)
Definition if_nonempty (l : list Q) (f : list Q -> result Q) : result Q :=
  match l with
  | [] => Ok 0%Q
  | _ => f l
  end.

(** ** Session data

    A point is a JSON object whose entries are all numbers ([x], [y],
    [timestamp], [pressure], [tiltX], ...), and so is a canvas size
    ([width], [height]): both are dictionaries.  A stroke and a session
    mix entry types, so they are records, an absent key being [None]. *)

Abbreviation Point := (gmap string Q) (only parsing).
Abbreviation CanvasSize := (gmap string Q) (only parsing).

Record Stroke : Type := {
  points : option (list Point);
  startTime : option Q;
  endTime : option Q;
}.

Record SessionData : Type := {
  strokes : option (list Stroke);
  canvasSize : option CanvasSize;
}.

Record Session : Type := {
  id : option string;
  testType : option string;
  createdAt : option Q;
  data : option SessionData;
}.

Local Open Scope string_scope.
Local Open Scope list_scope.
Local Open Scope Q_scope.

(** ** [class FeatureEngineer] *)

Record FeatureEngineer : Type := { feature_names : list string }.

(** [FeatureEngineer.__init__] *)
Definition FeatureEngineer_init : FeatureEngineer := {| feature_names := [] |}.


Definition _empty_kinematic_features (self : FeatureEngineer) : gmap string Q :=
  dict [("velocity_mean", 0); ("velocity_std", 0); ("velocity_max", 0);
        ("acceleration_mean", 0); ("acceleration_std", 0);
        ("jerk_mean", 0); ("jerk_std", 0);
        ("path_length_total", 0); ("path_length_mean", 0)].

Definition _empty_spatial_features (self : FeatureEngineer)
    : gmap string number :=
  dict [("bounding_box_width", Finite 0); ("bounding_box_height", Finite 0);
        ("bounding_box_area", Finite 0); ("canvas_coverage", Finite 0);
        ("center_offset_x", Finite 0); ("center_offset_y", Finite 0);
        ("center_offset_total", Finite 0)].

Definition _empty_temporal_features (self : FeatureEngineer) : gmap string Q :=
  dict [("stroke_duration_mean", 0); ("stroke_duration_std", 0);
        ("stroke_duration_max", 0); ("inter_stroke_pause_mean", 0);
        ("inter_stroke_pause_std", 0); ("inter_stroke_pause_max", 0);
        ("total_pause_time", 0)].

Definition _empty_pressure_features (self : FeatureEngineer) : gmap string Q :=
  dict [("pressure_mean", 0); ("pressure_std", 0); ("pressure_min", 0);
        ("pressure_max", 0); ("pressure_range", 0); ("pressure_cv", 0)].

(** *** [compute_kinematic_features] *)

(** The lists the method accumulates over the strokes. *)
Record KinematicLists : Type := {
  velocities : list Q;
  accelerations : list Q;
  jerks : list Q;
  path_lengths : list Q;
}.

(** Body of [for i in range(1, len(points))]: one velocity sample and one
    path-length sample per consecutive pair of points. *)
Definition velocity_body (pts : list Point) (i : nat)
    (s : list Q * list Q) : result (list Q * list Q) :=
  let '(stroke_velocities, lengths) := s in
  p0 ← index pts (i - 1);
  p1 ← index pts i;
  let dt := py_max 1 (get "timestamp" 0 p1 - get "timestamp" 0 p0) in
  let dx := get "x" 0 p1 - get "x" 0 p0 in
  let dy := get "y" 0 p1 - get "y" 0 p0 in
  dist ← np_sqrt (dx ^ 2 + dy ^ 2);
  velocity ← (if Qltb 0 dt then py_div dist dt else Ok 0);
  Ok (stroke_velocities ++ [velocity], lengths ++ [dist]).

(** Body of [for i in range(1, len(stroke_velocities))]. *)
Definition acceleration_body (pts : list Point) (stroke_velocities : list Q)
    (i : nat) (stroke_accelerations : list Q) : result (list Q) :=
  p1 ← index pts (i + 1);
  p0 ← index pts i;
  let dt := py_max 1 (get "timestamp" 0 p1 - get "timestamp" 0 p0) in
  accel ← (if Qltb 0 dt then
             v1 ← index stroke_velocities i;
             v0 ← index stroke_velocities (i - 1);
             py_div (v1 - v0) dt
           else Ok 0);
  Ok (stroke_accelerations ++ [accel]).

(** Body of [for i in range(1, len(stroke_accelerations))]. *)
Definition jerk_body (pts : list Point) (stroke_accelerations : list Q)
    (i : nat) (stroke_jerks : list Q) : result (list Q) :=
  p1 ← index pts (i + 2);
  p0 ← index pts (i + 1);
  let dt := py_max 1 (get "timestamp" 0 p1 - get "timestamp" 0 p0) in
  jerk ← (if Qltb 0 dt then
            a1 ← index stroke_accelerations i;
            a0 ← index stroke_accelerations (i - 1);
            py_div (a1 - a0) dt
          else Ok 0);
  Ok (stroke_jerks ++ [jerk]).

(** Body of [for stroke in strokes]. *)
Definition kinematic_stroke (stroke : Stroke) (acc : KinematicLists)
    : result KinematicLists :=
  let pts := default [] (points stroke) in
  if (length pts <? 2)%nat then Ok acc else
  '(stroke_velocities, lengths) ←
    for_each (velocity_body pts) (range 1 (length pts))
             ([], path_lengths acc);
  let vs := velocities acc ++ stroke_velocities in
  if (2 <=? length stroke_velocities)%nat then
    stroke_accelerations ←
      for_each (acceleration_body pts stroke_velocities)
               (range 1 (length stroke_velocities)) [];
    let accs := accelerations acc ++ stroke_accelerations in
    if (2 <=? length stroke_accelerations)%nat then
      stroke_jerks ←
        for_each (jerk_body pts stroke_accelerations)
                 (range 1 (length stroke_accelerations)) [];
      Ok {| velocities := vs; accelerations := accs;
            jerks := jerks acc ++ stroke_jerks; path_lengths := lengths |}
    else
      Ok {| velocities := vs; accelerations := accs;
            jerks := jerks acc; path_lengths := lengths |}
  else
    Ok {| velocities := vs; accelerations := accelerations acc;
          jerks := jerks acc; path_lengths := lengths |}.

Definition compute_kinematic_features (self : FeatureEngineer)
    (strokes : list Stroke)
    : result (gmap string Q) :=
  let features : gmap string Q := ∅ in
  if bool_decide (strokes = []) then Ok (_empty_kinematic_features self) else
  acc ← for_each kinematic_stroke strokes
          {| velocities := []; accelerations := []; jerks := [];
             path_lengths := [] |};
  velocity_mean ← if_nonempty (velocities acc) np_mean;
  velocity_std ← if_nonempty (velocities acc) np_std;
  velocity_max ← if_nonempty (velocities acc) np_max;
  acceleration_mean ← if_nonempty (accelerations acc) np_mean;
  acceleration_std ← if_nonempty (accelerations acc) np_std;
  jerk_mean ← if_nonempty (jerks acc) np_mean;
  jerk_std ← if_nonempty (jerks acc) np_std;
  path_length_mean ← if_nonempty (path_lengths acc) np_mean;
  Ok (update features (dict [
    ("velocity_mean", velocity_mean);
    ("velocity_std", velocity_std);
    ("velocity_max", velocity_max);
    ("acceleration_mean", acceleration_mean);
    ("acceleration_std", acceleration_std);
    ("jerk_mean", jerk_mean);
    ("jerk_std", jerk_std);
    ("path_length_total", py_sum (path_lengths acc));
    ("path_length_mean", path_length_mean)])).


(** *** [compute_spatial_features] *)

(** The [(x, y)] pairs of all points of all strokes, in order. *)
Definition extract_all_points (strokes : list Stroke) : list (Q * Q) :=
  flat_map (fun stroke =>
              map (fun p : Point => (get "x" 0 p, get "y" 0 p))
                  (default [] (points stroke)))
           strokes.

Definition compute_spatial_features (self : FeatureEngineer)
    (strokes : list Stroke) (canvas_size : CanvasSize)
    : result (gmap string number) :=
  let features : gmap string number := ∅ in
  if bool_decide (strokes = []) || bool_decide (canvas_size = ∅)
  then Ok (_empty_spatial_features self) else
  (* Extract all points *)
  let all_points := extract_all_points strokes in
  if bool_decide (all_points = []) then Ok (_empty_spatial_features self) else
  (* Bounding box features *)
  min_x ← np_min (map fst all_points);
  min_y ← np_min (map snd all_points);
  max_x ← np_max (map fst all_points);
  max_y ← np_max (map snd all_points);
  let features := update features (dict [
    ("bounding_box_width", Finite (max_x - min_x));
    ("bounding_box_height", Finite (max_y - min_y));
    ("bounding_box_area", Finite ((max_x - min_x) * (max_y - min_y)));
    ("canvas_coverage",
     np_divide ((max_x - min_x) * (max_y - min_y))
               (get "width" 1 canvas_size * get "height" 1 canvas_size))]) in
  (* Center of mass *)
  center_x ← np_mean (map fst all_points);
  center_y ← np_mean (map snd all_points);
  canvas_center_x ← py_div (get "width" 0 canvas_size) 2;
  canvas_center_y ← py_div (get "height" 0 canvas_size) 2;
  center_offset_total ←
    np_sqrt ((center_x - canvas_center_x) ^ 2
             + (center_y - canvas_center_y) ^ 2);
  Ok (update features (dict [
    ("center_offset_x", Finite (Qabs (center_x - canvas_center_x)));
    ("center_offset_y", Finite (Qabs (center_y - canvas_center_y)));
    ("center_offset_total", Finite center_offset_total)])).

(** *** [compute_temporal_features] *)

(** Body of [for stroke in strokes] collecting the durations. *)
Definition duration_body (stroke : Stroke) (durations : list Q) : list Q :=
  match startTime stroke, endTime stroke with
  | Some start, Some stop => durations ++ [stop - start]
  | _, _ => durations
  end.

(** Body of [for i in range(1, len(strokes))] collecting the pauses. *)
Definition pause_body (strokes : list Stroke) (i : nat) (pauses : list Q)
    : result (list Q) :=
  prev_stroke ← index strokes (i - 1);
  curr_stroke ← index strokes i;
  match endTime prev_stroke, startTime curr_stroke with
  | Some stop, Some start =>
      let pause := start - stop in
      Ok (pauses ++ [py_max 0 pause])
  | _, _ => Ok pauses
  end.

Definition compute_temporal_features (self : FeatureEngineer)
    (strokes : list Stroke) : result (gmap string Q) :=
  let features : gmap string Q := ∅ in
  if bool_decide (strokes = []) then Ok (_empty_temporal_features self) else
  (* Stroke durations *)
  let durations := fold_left (fun ds stroke => duration_body stroke ds)
                             strokes [] in
  (* Inter-stroke pauses *)
  pauses ← for_each (pause_body strokes) (range 1 (length strokes)) [];
  stroke_duration_mean ← if_nonempty durations np_mean;
  stroke_duration_std ← if_nonempty durations np_std;
  stroke_duration_max ← if_nonempty durations np_max;
  inter_stroke_pause_mean ← if_nonempty pauses np_mean;
  inter_stroke_pause_std ← if_nonempty pauses np_std;
  inter_stroke_pause_max ← if_nonempty pauses np_max;
  Ok (update features (dict [
    ("stroke_duration_mean", stroke_duration_mean);
    ("stroke_duration_std", stroke_duration_std);
    ("stroke_duration_max", stroke_duration_max);
    ("inter_stroke_pause_mean", inter_stroke_pause_mean);
    ("inter_stroke_pause_std", inter_stroke_pause_std);
    ("inter_stroke_pause_max", inter_stroke_pause_max);
    ("total_pause_time", py_sum pauses)])).

(** *** [compute_pressure_features] *)

(** The pressure values of the points that carry one, in order. *)
Definition collect_pressures (strokes : list Stroke) : list Q :=
  flat_map (fun stroke =>
              flat_map (fun point : Point =>
                          match point !! "pressure" with
                          | Some pressure => [pressure]
                          | None => []
                          end)
                       (default [] (points stroke)))
           strokes.

Definition compute_pressure_features (self : FeatureEngineer)
    (strokes : list Stroke) : result (gmap string Q) :=
  let features : gmap string Q := ∅ in
  let pressures := collect_pressures strokes in
  if bool_decide (pressures = []) then Ok (_empty_pressure_features self) else
  pressure_mean ← np_mean pressures;
  pressure_std ← np_std pressures;
  pressure_min ← np_min pressures;
  pressure_max ← np_max pressures;
  pressure_cv ←
    (m ← np_mean pressures;
     if Qltb 0 m then
       s ← np_std pressures; m' ← np_mean pressures; py_div s m'
     else Ok 0);
  Ok (update features (dict [
    ("pressure_mean", pressure_mean);
    ("pressure_std", pressure_std);
    ("pressure_min", pressure_min);
    ("pressure_max", pressure_max);
    ("pressure_range", pressure_max - pressure_min);
    ("pressure_cv", pressure_cv)])).

(** *** [compute_pressure_features] over float64

    The same method with the rounding of every operation: the pressures
    are the float64 values [json.load] read, and every sum, difference,
    product and quotient is rounded to float64.  [np.mean] is
    [add.reduce(l) / n], and [np.std] subtracts that mean, squares the
    deviations, takes [add.reduce(x) / n] and the root.  The sums add from
    left to right, as numpy does for an array of fewer than eight elements
    (it adds longer arrays in blocks). *)







(** ** [class DataLoader] *)

(** The values of a session record: strings and numbers. *)
Inductive value : Type :=
  | Str (s : string)
  | Num (q : Q).

(** What [json.load] finds in one exported file. *)
Inductive JsonFile : Type :=
  | FileList (l : list Session)     (* a JSON array of sessions *)
  | FileOne (s : Session)           (* a single session *)
  | FileBad.                        (* unreadable: logged and skipped *)

Record DataLoader : Type := {
  data_dir : list JsonFile;         (* the *.json files under data_dir *)
  sessions : list Session;
}.

(** [DataLoader.__init__] *)
Definition DataLoader_init (dir : list JsonFile) : DataLoader :=
  {| data_dir := dir; sessions := [] |}.

(** [load_sessions]: extends [self.sessions] and returns it. *)
Definition load_sessions (self : DataLoader) : DataLoader * list Session :=
  let loaded :=
    fold_left (fun ss file =>
                 match file with
                 | FileList l => ss ++ l
                 | FileOne s => ss ++ [s]
                 | FileBad => ss
                 end)
              (data_dir self) (sessions self) in
  ({| data_dir := data_dir self; sessions := loaded |}, loaded).

(** [_compute_stroke_features] *)
Definition _compute_stroke_features (self : DataLoader) (strokes : list Stroke)
    : result (gmap string value) :=
  if bool_decide (strokes = []) then Ok ∅ else
  let features : gmap string value := ∅ in
  (* Basic counts *)
  let features := <["stroke_count" := Num (len strokes)]> features in
  let features :=
    <["total_points" :=
        Num (py_sum (map (fun stroke => len (default [] (points stroke)))
                         strokes))]> features in
  (* Timing features *)
  let durations := fold_left (fun ds stroke => duration_body stroke ds)
                             strokes [] in
  features ←
    (if bool_decide (durations = []) then Ok features else
     mean ← np_mean durations;
     std ← np_std durations;
     Ok (<["total_drawing_time" := Num (py_sum durations)]>
           (<["stroke_duration_std" := Num std]>
              (<["stroke_duration_mean" := Num mean]> features))));
  (* Pressure features (if available) *)
  let pressures := collect_pressures strokes in
  if bool_decide (pressures = []) then Ok features else
  mean ← np_mean pressures;
  std ← np_std pressures;
  lo ← np_min pressures;
  hi ← np_max pressures;
  Ok (<["pressure_max" := Num hi]>
        (<["pressure_min" := Num lo]>
           (<["pressure_std" := Num std]>
              (<["pressure_mean" := Num mean]> features)))).

(** [extract_features]: the record of one session. *)
Definition extract_features (self : DataLoader) (session : Session)
    : result (gmap string value) :=
  let features : gmap string value := dict [
    ("session_id", Str (default "unknown" (id session)));
    ("test_type", Str (default "unknown" (testType session)));
    ("created_at", Num (default 0 (createdAt session)))] in
  (* Extract handwriting data if available *)
  let data := default {| strokes := None; canvasSize := None |}
                      (data session) in
  match strokes data with
  | Some strokes =>
      stroke_features ← _compute_stroke_features self strokes;
      Ok (update features stroke_features)
  | None => Ok features
  end.

(** [create_dataset]: the rows handed to [pd.DataFrame], one per session,
    together with the loader as the call leaves it. *)
Definition create_dataset (self : DataLoader)
    : DataLoader * result (list (gmap string value)) :=
  let self := if bool_decide (sessions self = [])
              then fst (load_sessions self) else self in
  (self,
   for_each (fun session rows =>
               features ← extract_features self session;
               Ok (rows ++ [features]))
            (sessions self) []).

(** ** The documented key sets *)

Definition kinematic_keys : gset string :=
  list_to_set ["velocity_mean"; "velocity_std"; "velocity_max";
               "acceleration_mean"; "acceleration_std";
               "jerk_mean"; "jerk_std";
               "path_length_total"; "path_length_mean"].

Definition spatial_keys : gset string :=
  list_to_set ["bounding_box_width"; "bounding_box_height";
               "bounding_box_area"; "canvas_coverage";
               "center_offset_x"; "center_offset_y"; "center_offset_total"].

Definition temporal_keys : gset string :=
  list_to_set ["stroke_duration_mean"; "stroke_duration_std";
               "stroke_duration_max"; "inter_stroke_pause_mean";
               "inter_stroke_pause_std"; "inter_stroke_pause_max";
               "total_pause_time"].

Definition pressure_keys : gset string :=
  list_to_set ["pressure_mean"; "pressure_std"; "pressure_min";
               "pressure_max"; "pressure_range"; "pressure_cv"].

Definition metadata_keys : gset string :=
  list_to_set ["session_id"; "test_type"; "created_at"].

Definition count_keys : gset string :=
  list_to_set ["stroke_count"; "total_points"].

(** Every key the specification recognises in an aggregated record. *)
Definition recognized_keys : gset string :=
  kinematic_keys ∪ spatial_keys ∪ temporal_keys ∪ pressure_keys
  ∪ metadata_keys ∪ count_keys.

(** The strokes entry a session carries, if any: [session['data']['strokes']]. *)
Definition session_strokes (session : Session) : option (list Stroke) :=
  d ← data session; strokes d.

(** Every key [_compute_stroke_features] may write. *)
Definition stroke_feature_keys : gset string :=
  list_to_set ["stroke_count"; "total_points";
               "stroke_duration_mean"; "stroke_duration_std";
               "total_drawing_time";
               "pressure_mean"; "pressure_std"; "pressure_min"; "pressure_max"].

(** The three entries [extract_features] starts from. *)
Definition metadata_record (session : Session) : gmap string value :=
  dict [("session_id", Str (default "unknown" (id session)));
        ("test_type", Str (default "unknown" (testType session)));
        ("created_at", Num (default 0 (createdAt session)))].

(** The record [features] holds the number [q] under the key [k]. *)
Definition feature_is (features : gmap string Q) (k : string) (q : Q) : Prop :=
  exists v, features !! k = Some v /\ v == q.

(** The same for a record of numpy scalars: the entry is finite and equal
    to [q]. *)
Definition finite_is (features : gmap string number) (k : string) (q : Q)
    : Prop :=
  exists v, features !! k = Some (Finite v) /\ v == q.

(** The entry [k] of the record a call returned; [None] when the call
    raised or the record has no such key. *)
Definition entry {V : Type} (r : result (gmap string V)) (k : string)
    : option V :=
  match r with
  | Ok features => features !! k
  | Raise _ => None
  end.

(** ** Reference inputs *)

(** A point [{x, y, timestamp, pressure}]. *)
Definition point (x y t p : Q) : Point :=
  dict [("x", x); ("y", y); ("timestamp", t); ("pressure", p)].

(** One stroke through (0,0), (3,4), (6,8) at t = 0, 100, 200 with the
    constant pressure 0.5, on a canvas of 500 by 500. *)
Definition scenario_stroke : Stroke :=
  {| points := Some [point 0 0 0 0.5; point 3 4 100 0.5; point 6 8 200 0.5];
     startTime := Some 0; endTime := Some 200 |}.

Definition scenario_canvas : CanvasSize :=
  dict [("width", 500); ("height", 500)].

(** A canvas size that gives the height only. *)
Definition canvas_without_width : CanvasSize := dict [("height", 500)].

(** A canvas size of width zero. *)
Definition canvas_zero_width : CanvasSize :=
  dict [("width", 0); ("height", 500)].

(** Three points that all carry the pressure [p]. *)
Definition constant_pressure_stroke (p : Q) : Stroke :=
  {| points := Some [point 0 0 0 p; point 1 1 10 p; point 2 1 20 p];
     startTime := Some 0; endTime := Some 20 |}.

(** Two points at the same instant, 3-4-5 apart. *)
Definition simultaneous_stroke : Stroke :=
  {| points := Some [point 0 0 70 0.5; point 3 4 70 0.5];
     startTime := Some 70; endTime := Some 70 |}.

(** Two overlapping strokes: A ends at 500, B starts at 300. *)
Definition stroke_A : Stroke :=
  {| points := None; startTime := Some 100; endTime := Some 500 |}.


(** A session that is an empty mapping. *)
Definition bare_session : Session :=
  {| id := None; testType := None; createdAt := None; data := None |}.

(** A session whose stroke list is empty. *)
Definition empty_session : Session :=
  {| id := Some "s-empty"; testType := Some "clock"; createdAt := Some 1700;
     data := Some {| strokes := Some []; canvasSize := Some scenario_canvas |} |}.

(** A session with one stroke of a single bare point: no pressure, no
    start or end time. *)
Definition sparse_session : Session :=
  {| id := Some "s-sparse"; testType := Some "spiral"; createdAt := Some 1701;
     data := Some {| strokes := Some [ {| points := Some [dict [("x", 1); ("y", 2)]];
                                          startTime := None; endTime := None |} ];
                     canvasSize := Some scenario_canvas |} |}.

(** The session of the reference scenario. *)
Definition scenario_session : Session :=
  {| id := Some "s-scenario"; testType := Some "clock"; createdAt := Some 1702;
     data := Some {| strokes := Some [scenario_stroke];
                     canvasSize := Some scenario_canvas |} |}.

(** ** Notions used by the further properties *)

(** [len(stroke.get('points', []))] *)
Definition point_count (stroke : Stroke) : nat :=
  length (default [] (points stroke)).

(** The four lists [compute_kinematic_features] holds after its loop over
    the strokes. *)
Definition kinematic_lists (strokes : list Stroke) : result KinematicLists :=
  for_each kinematic_stroke strokes
    {| velocities := []; accelerations := []; jerks := [];
       path_lengths := [] |}.

(** The durations [compute_temporal_features] and
    [_compute_stroke_features] collect. *)
Definition stroke_durations (strokes : list Stroke) : list Q :=
  fold_left (fun ds stroke => duration_body stroke ds) strokes [].

(** The stroke carries both [startTime] and [endTime]. *)
Definition has_times (stroke : Stroke) : bool :=
  match startTime stroke, endTime stroke with
  | Some _, Some _ => true
  | _, _ => false
  end.

(** The points of all strokes, in order. *)
Definition pooled_points (strokes : list Stroke) : list Point :=
  flat_map (fun stroke => default [] (points stroke)) strokes.

(** The record [features] holds under [k] a number that satisfies [P]. *)
Definition holds (features : gmap string Q) (k : string) (P : Q -> Prop)
    : Prop :=
  exists v, features !! k = Some v /\ P v.

(** The same for the records of [DataLoader]. *)
Definition holds_num (record : gmap string value) (k : string)
    (P : Q -> Prop) : Prop :=
  exists v, record !! k = Some (Num v) /\ P v.

(** Whatever number [record] holds under [k], [features] holds it too. *)
Definition entry_agrees (record : gmap string value)
    (features : gmap string Q) (k : string) : Prop :=
  forall v, record !! k = Some (Num v) -> features !! k = Some v.

(** The clamped gaps between consecutive strokes that carry the two times,
    by recursion on the stroke list. *)
Fixpoint consecutive_pauses (strokes : list Stroke) : list Q :=
  match strokes with
  | prev_stroke :: ((curr_stroke :: _) as rest) =>
      match endTime prev_stroke, startTime curr_stroke with
      | Some stop, Some start => py_max 0 (start - stop) :: consecutive_pauses rest
      | _, _ => consecutive_pauses rest
      end
  | _ => []
  end.

(** A stroke list in which every stroke carries both times and no stroke
    starts before the one before it ends. *)
Fixpoint well_timed (strokes : list Stroke) : Prop :=
  match strokes with
  | [] => True
  | prev_stroke :: rest =>
      (exists start stop,
         startTime prev_stroke = Some start /\ endTime prev_stroke = Some stop)
      /\ match rest with
         | [] => True
         | curr_stroke :: _ =>
             forall stop start,
               endTime prev_stroke = Some stop ->
               startTime curr_stroke = Some start -> stop <= start
         end
      /\ well_timed rest
  end.

(** The keys [_compute_stroke_features] writes when some stroke carries
    both times, and when some point carries a pressure. *)
Definition duration_keys : gset string :=
  list_to_set ["stroke_duration_mean"; "stroke_duration_std";
               "total_drawing_time"].

Definition loader_pressure_keys : gset string :=
  list_to_set ["pressure_mean"; "pressure_std"; "pressure_min"; "pressure_max"].

(** The sessions one exported file contributes. *)
Definition file_sessions (file : JsonFile) : list Session :=
  match file with
  | FileList l => l
  | FileOne s => [s]
  | FileBad => []
  end.

(** ** [run_training_pipeline.py]

    The pipeline acts on the world through [subprocess.run] and [mkdir];
    the model threads the world and records both kinds of action, a
    subprocess with the return code it gave.  Logging is left out. *)

Inductive Effect : Type :=
  | Mkdir (path : string)
  | Subprocess (cmd : list string) (returncode : Z).

(** The parsed command line of [main]. *)
Record PipelineArgs : Type := {
  arg_data_dir : string;
  arg_output_dir : string;
  skip_data_prep : bool;
  skip_feature_eng : bool;
  skip_training : bool;
  skip_evaluation : bool;
  skip_export : bool;
}.

Section Pipeline.
Variable World : Type.
(** [sys.executable] *)
Variable executable : string.
(** [subprocess.run(cmd, ...).returncode] and the world the run leaves. *)
Variable subprocess_run : list string -> World -> Z * World.

(** [run_script(script_path, args)] *)
Definition run_script (script_path : string) (args : list string)
    (st : World * list Effect) : bool * (World * list Effect) :=
  let cmd := [executable; script_path] in
  let cmd := cmd ++ args in
  let '(returncode, world) := subprocess_run cmd (fst st) in
  let st := (world, snd st ++ [Subprocess cmd returncode]) in
  if negb (returncode =? 0)%Z then (false, st) else (true, st).

(** [Path(p).mkdir(parents=True, exist_ok=True)] *)
Definition mkdir (path : string) (st : World * list Effect)
    : World * list Effect :=
  (fst st, snd st ++ [Mkdir path]).

(** [main()] after [parse_args]: the exit code and the final state. *)
Definition pipeline_main (args : PipelineArgs) (st : World * list Effect)
    : Z * (World * list Effect) :=
  (* Create necessary directories *)
  let st := mkdir "data/processed" st in
  let st := mkdir "results" st in
  let st := mkdir (arg_output_dir args) st in
  (* Step 1: Data Preparation *)
  let '(ok, st) :=
    if negb (skip_data_prep args)
    then run_script "01_data_preparation.py"
                    ["--data_dir"; arg_data_dir args] st
    else (true, st) in
  if negb ok then (1%Z, st) else
  (* Step 2: Feature Engineering *)
  let '(ok, st) :=
    if negb (skip_feature_eng args)
    then run_script "02_feature_engineering.py" [] st
    else (true, st) in
  if negb ok then (1%Z, st) else
  (* Step 3: Model Training *)
  let '(ok, st) :=
    if negb (skip_training args)
    then run_script "03_model_training.py"
                    ["--output_dir"; arg_output_dir args] st
    else (true, st) in
  if negb ok then (1%Z, st) else
  (* Step 4: Model Evaluation *)
  let '(ok, st) :=
    if negb (skip_evaluation args)
    then run_script "04_model_evaluation.py"
                    ["--models_dir"; arg_output_dir args] st
    else (true, st) in
  if negb ok then (1%Z, st) else
  (* Step 5: Model Export *)
  let '(ok, st) :=
    if negb (skip_export args)
    then run_script "05_model_export.py"
                    ["--models_dir"; arg_output_dir args] st
    else (true, st) in
  if negb ok then (1%Z, st) else
  (0%Z, st).

(** The steps [main] is asked to run, in order: script and arguments. *)
Definition planned_steps (args : PipelineArgs)
    : list (string * list string) :=
  (if skip_data_prep args then []
   else [("01_data_preparation.py", ["--data_dir"; arg_data_dir args])])
  ++ (if skip_feature_eng args then []
      else [("02_feature_engineering.py", [])])
  ++ (if skip_training args then []
      else [("03_model_training.py", ["--output_dir"; arg_output_dir args])])
  ++ (if skip_evaluation args then []
      else [("04_model_evaluation.py", ["--models_dir"; arg_output_dir args])])
  ++ (if skip_export args then []
      else [("05_model_export.py", ["--models_dir"; arg_output_dir args])]).

(** Running a list of steps until one fails. *)
Fixpoint run_steps (steps : list (string * list string))
    (st : World * list Effect) : Z * (World * list Effect) :=
  match steps with
  | [] => (0%Z, st)
  | (script_path, args) :: rest =>
      let '(ok, st) := run_script script_path args st in
      if negb ok then (1%Z, st) else run_steps rest st
  end.
End Pipeline.

(** The subprocess runs of a trace: command and return code. *)
Definition subprocess_runs (trace : list Effect) : list (list string * Z) :=
  flat_map (fun e => match e with
                     | Subprocess cmd returncode => [(cmd, returncode)]
                     | Mkdir _ => []
                     end) trace.

(** The command [run_script] builds for a step. *)
Definition step_command (executable : string) (step : string * list string)
    : list string :=
  [executable; fst step] ++ snd step.

(** A world without state in which exactly the commands of [failing] fail. *)
Definition scripted_run (failing : list (list string)) (cmd : list string)
    (w : unit) : Z * unit :=
  (if bool_decide (cmd ∈ failing) then 2%Z else 0%Z, w).

(** All steps requested, and training only. *)
Definition all_steps_args : PipelineArgs :=
  {| arg_data_dir := "data/raw"; arg_output_dir := "models/";
     skip_data_prep := false; skip_feature_eng := false;
     skip_training := false; skip_evaluation := false; skip_export := false |}.

(** * Properties *)

(** ** The result monad and loops *)

Lemma bind_Ok {A B : Type} (a : A) (f : A -> result B) : (Ok a ≫= f) = f a.
Proof. reflexivity. Qed.

(** A loop whose body preserves an invariant of the elements already
    visited and the state runs to its end and establishes the invariant
    of the whole list. *)
Lemma for_each_inv {A S : Type} (body : A -> S -> result S) (l : list A) :
  forall (P : list A -> S -> Prop) (s0 : S),
    P [] s0 ->
    (forall done a rest s, l = done ++ a :: rest -> P done s ->
       exists s', body a s = Ok s' /\ P (done ++ [a]) s') ->
    exists s', for_each body l s0 = Ok s' /\ P l s'.
Proof.
  induction l as [|a l IH]; intros P s0 H0 Hstep.
  - exists s0. split; [reflexivity | exact H0].
  - destruct (Hstep [] a l s0 eq_refl H0) as (s1 & E & P1).
    cbn [for_each]. rewrite E, bind_Ok.
    apply (IH (fun d s => P (a :: d) s) s1 P1).
    intros done b rest s -> Pd.
    exact (Hstep (a :: done) b rest s eq_refl Pd).
Qed.

Lemma for_each_app {A S : Type} (body : A -> S -> result S)
    (l1 l2 : list A) (s : S) :
  for_each body (l1 ++ l2) s = (s' ← for_each body l1 s; for_each body l2 s').
Proof.
  revert s. induction l1 as [|a l1 IH]; intros s; [reflexivity|].
  cbn [app for_each]. destruct (body a s) as [s1|e]; [|reflexivity].
  rewrite !bind_Ok. apply IH.
Qed.

Lemma range_split (lo hi : nat) (done rest : list nat) (i : nat) :
  range lo hi = done ++ i :: rest -> (i = lo + length done /\ i < hi)%nat.
Proof.
  unfold range. intros E.
  assert (Hi : seq lo (hi - lo) !! length done = Some i).
  { rewrite E. rewrite lookup_app_r by lia. by rewrite Nat.sub_diag. }
  apply lookup_seq in Hi. lia.
Qed.

Lemma length_range (lo hi : nat) : length (range lo hi) = (hi - lo)%nat.
Proof. unfold range. apply length_seq. Qed.

Lemma index_lt {A : Type} (l : list A) (i : nat) :
  (i < length l)%nat -> exists a, l !! i = Some a /\ index l i = Ok a.
Proof.
  intros Hi. destruct (lookup_lt_is_Some_2 l i Hi) as [a Ha].
  exists a. unfold index. by rewrite Ha.
Qed.

Lemma index_Some {A : Type} (l : list A) (i : nat) (a : A) :
  l !! i = Some a -> index l i = Ok a.
Proof. unfold index. by intros ->. Qed.

Lemma entry_Ok {V : Type} (r : result (gmap string V))
    (features : gmap string V) (k : string) :
  r = Ok features -> features !! k = entry r k.
Proof. by intros ->. Qed.

(** ** Numeric primitives *)

Lemma Qltb_lt (a b : Q) : Qltb a b = true <-> a < b.
Proof.
  unfold Qltb. rewrite negb_true_iff, <- not_true_iff_false, Qle_bool_iff.
  split; [apply Qnot_le_lt | apply Qlt_not_le].
Qed.

Lemma Qltb_ge (a b : Q) : Qltb a b = false <-> b <= a.
Proof. unfold Qltb. by rewrite negb_false_iff, Qle_bool_iff. Qed.

Lemma py_max_clamp (a b : Q) : b <= a -> py_max a b = a.
Proof. intros H. unfold py_max. apply Qltb_ge in H. by rewrite H. Qed.

Lemma py_max_lower (a b : Q) : a <= py_max a b.
Proof.
  unfold py_max. destruct (Qltb a b) eqn:E.
  - apply Qltb_lt in E. lra.
  - lra.
Qed.

Lemma py_div_Ok (a b : Q) : ~ b == 0 -> py_div a b = Ok (a / b).
Proof.
  intros H. unfold py_div. destruct (Qeq_bool b 0) eqn:E; [|reflexivity].
  apply Qeq_bool_eq in E. contradiction.
Qed.

(** The clamped time delta of the three derivative loops is positive, so
    their guarded quotients never fail. *)
Lemma clamped_dt_positive (t : Q) : Qltb 0 (py_max 1 t) = true.
Proof. apply Qltb_lt. pose proof (py_max_lower 1 t). lra. Qed.

Lemma clamped_quotient_Ok (num t : Q) :
  py_div num (py_max 1 t) = Ok (num / py_max 1 t).
Proof. apply py_div_Ok. pose proof (py_max_lower 1 t). lra. Qed.

Lemma len_pos {A : Type} (l : list A) : l <> [] -> 0 < len l.
Proof.
  intros H. unfold len. destruct l as [|a l]; [done|].
  replace 0 with (inject_Z 0) by reflexivity. rewrite <- Zlt_Qlt.
  cbn [length]. lia.
Qed.

Lemma len_cons {A : Type} (a : A) (l : list A) : len (a :: l) == len l + 1.
Proof.
  unfold len. cbn [length]. rewrite Nat2Z.inj_succ, <- Z.add_1_r.
  by rewrite inject_Z_plus.
Qed.

Lemma np_mean_Ok (l : list Q) : l <> [] -> np_mean l = Ok (py_sum l / len l).
Proof.
  intros H. unfold np_mean. apply py_div_Ok.
  pose proof (len_pos l H). lra.
Qed.

Lemma fold_left_Qplus (l : list Q) (a : Q) :
  fold_left Qplus l a == a + py_sum l.
Proof.
  unfold py_sum. revert a. induction l as [|x l IH]; intros a; cbn [fold_left].
  - lra.
  - rewrite (IH (a + x)), (IH (0 + x)). lra.
Qed.

Lemma py_sum_cons (x : Q) (l : list Q) : py_sum (x :: l) == x + py_sum l.
Proof.
  unfold py_sum at 1. cbn [fold_left]. rewrite fold_left_Qplus. lra.
Qed.

Lemma py_sum_nonneg (l : list Q) : Forall (fun x => 0 <= x) l -> 0 <= py_sum l.
Proof.
  induction 1 as [|x l Hx _ IH].
  - change (0 <= 0). lra.
  - rewrite py_sum_cons. lra.
Qed.

Lemma np_sqrt_Ok (q : Q) : 0 <= q -> exists r, np_sqrt q = Ok r.
Proof.
  intros H. unfold np_sqrt. apply Qltb_ge in H. rewrite H. eauto.
Qed.


Lemma dyadic_nonneg (m e : Z) : (0 <= m)%Z -> 0 <= dyadic m e.
Proof.
  intros Hm. unfold dyadic. rewrite Qred_correct.
  destruct (0 <=? e)%Z eqn:He.
  - apply Z.leb_le in He. unfold Qle. cbn [Qnum Qden inject_Z].
    pose proof (Z.pow_nonneg 2 e). nia.
  - unfold Qle. cbn [Qnum Qden]. lia.
Qed.





Lemma sqrt_binary64_nonneg (q : Q) : 0 <= sqrt_binary64 q.
Proof.
  unfold sqrt_binary64. destruct (Qeq_bool q 0); [lra|].
  destruct (scaled _ _ (2 * _)) as [a0 b0].
  match goal with |- context [scaled ?n ?d ?e] =>
    destruct (scaled n d e) as [a b]
  end.
  apply dyadic_nonneg. pose proof (Z.sqrt_nonneg (a / b)).
  destruct (4 * a ?= _)%Z; [destruct (Z.even _)| |]; lia.
Qed.

Lemma Qsquare_nonneg (a : Q) : 0 <= a ^ 2.
Proof. cbn. destruct (Qlt_le_dec a 0); nra. Qed.

Lemma mean_squares_nonneg (m : Q) (l : list Q) :
  0 <= py_sum (map (fun x => (x - m) ^ 2) l).
Proof.
  apply py_sum_nonneg. induction l as [|x l IH]; constructor; [|exact IH].
  apply Qsquare_nonneg.
Qed.

Lemma np_std_Ok (l : list Q) : l <> [] -> exists s, np_std l = Ok s.
Proof.
  intros H. unfold np_std. rewrite (np_mean_Ok l H), bind_Ok.
  rewrite np_mean_Ok by (destruct l; done). rewrite bind_Ok.
  apply np_sqrt_Ok. pose proof (mean_squares_nonneg (py_sum l / len l) l).
  assert (0 < len (map (fun x => (x - py_sum l / len l) ^ 2) l))
    by (apply len_pos; destruct l; done).
  apply Qle_shift_div_l; lra.
Qed.

Lemma np_max_Ok (l : list Q) : l <> [] -> exists v, np_max l = Ok v.
Proof. destruct l; [done | cbn; eauto]. Qed.

Lemma np_min_Ok (l : list Q) : l <> [] -> exists v, np_min l = Ok v.
Proof. destruct l; [done | cbn; eauto]. Qed.

Lemma if_nonempty_Ok (l : list Q) (f : list Q -> result Q) :
  (l <> [] -> exists v, f l = Ok v) -> exists v, if_nonempty l f = Ok v.
Proof.
  intros H. destruct l as [|x l]; [cbn; eauto|]. by apply H.
Qed.

Lemma if_nonempty_mean (l : list Q) : exists v, if_nonempty l np_mean = Ok v.
Proof. apply if_nonempty_Ok. intros H. rewrite np_mean_Ok by done. eauto. Qed.

Lemma if_nonempty_std (l : list Q) : exists v, if_nonempty l np_std = Ok v.
Proof. apply if_nonempty_Ok, np_std_Ok. Qed.

Lemma if_nonempty_max (l : list Q) : exists v, if_nonempty l np_max = Ok v.
Proof. apply if_nonempty_Ok, np_max_Ok. Qed.

(** ** Dictionaries *)

Lemma dom_dict {V : Type} (l : list (string * V)) :
  dom (dict l) = list_to_set (map fst l).
Proof.
  unfold dict. rewrite dom_list_to_map_L, fmap_reverse.
  apply list_to_set_perm_L, reverse_Permutation.
Qed.

Lemma dom_update {V : Type} (d e : gmap string V) :
  dom (update d e) = dom e ∪ dom d.
Proof. unfold update. apply dom_union_L. Qed.

(** ** The kinematic extractor is total *)

Lemma sum_squares_nonneg (a b : Q) : 0 <= a ^ 2 + b ^ 2.
Proof.
  pose proof (Qsquare_nonneg a). pose proof (Qsquare_nonneg b). lra.
Qed.

Lemma velocity_loop_Ok (pts : list Point) (ls0 : list Q) :
  exists s, for_each (velocity_body pts) (range 1 (length pts)) ([], ls0) = Ok s
            /\ length (fst s) = (length pts - 1)%nat.
Proof.
  destruct (for_each_inv (velocity_body pts) (range 1 (length pts))
              (fun done s => length (fst s) = length done) ([], ls0) eq_refl)
    as (s & E & Hlen).
  - intros done i rest [sv ls] Hsplit Hinv. cbn [fst] in Hinv.
    apply range_split in Hsplit as [Hi Hlt].
    destruct (index_lt pts (i - 1)) as (p0 & _ & E0); [lia|].
    destruct (index_lt pts i) as (p1 & _ & E1); [lia|].
    unfold velocity_body. rewrite E0, bind_Ok, E1, bind_Ok.
    destruct (np_sqrt_Ok _ (sum_squares_nonneg
                (get "x" 0 p1 - get "x" 0 p0) (get "y" 0 p1 - get "y" 0 p0)))
      as (dist & Ed).
    rewrite Ed, bind_Ok, clamped_dt_positive, clamped_quotient_Ok, bind_Ok.
    eexists. split; [reflexivity|].
    cbn [fst]. rewrite !length_app. cbn [length]. lia.
  - exists s. split; [exact E|]. rewrite Hlen, length_range. reflexivity.
Qed.

Lemma acceleration_loop_Ok (pts : list Point) (sv : list Q) :
  length sv = (length pts - 1)%nat ->
  exists sa, for_each (acceleration_body pts sv) (range 1 (length sv)) [] = Ok sa
             /\ length sa = (length sv - 1)%nat.
Proof.
  intros Hsv.
  destruct (for_each_inv (acceleration_body pts sv) (range 1 (length sv))
              (fun done sa => length sa = length done) [] eq_refl)
    as (sa & E & Hlen).
  - intros done i rest sa Hsplit Hinv.
    apply range_split in Hsplit as [Hi Hlt].
    destruct (index_lt pts (i + 1)) as (p1 & _ & E1); [lia|].
    destruct (index_lt pts i) as (p0 & _ & E0); [lia|].
    destruct (index_lt sv i) as (v1 & _ & Ev1); [lia|].
    destruct (index_lt sv (i - 1)) as (v0 & _ & Ev0); [lia|].
    unfold acceleration_body.
    rewrite E1, bind_Ok, E0, bind_Ok, clamped_dt_positive.
    rewrite Ev1, bind_Ok, Ev0, bind_Ok, clamped_quotient_Ok, bind_Ok.
    eexists. split; [reflexivity|].
    rewrite !length_app. cbn [length]. lia.
  - exists sa. split; [exact E|]. rewrite Hlen, length_range. reflexivity.
Qed.

Lemma jerk_loop_Ok (pts : list Point) (sa : list Q) :
  (length sa + 2 <= length pts)%nat ->
  exists sj, for_each (jerk_body pts sa) (range 1 (length sa)) [] = Ok sj.
Proof.
  intros Hsa.
  destruct (for_each_inv (jerk_body pts sa) (range 1 (length sa))
              (fun _ _ => True) [] I)
    as (sj & E & _); [|eauto].
  intros done i rest sj Hsplit _.
  apply range_split in Hsplit as [Hi Hlt].
  destruct (index_lt pts (i + 2)) as (p1 & _ & E1); [lia|].
  destruct (index_lt pts (i + 1)) as (p0 & _ & E0); [lia|].
  destruct (index_lt sa i) as (a1 & _ & Ea1); [lia|].
  destruct (index_lt sa (i - 1)) as (a0 & _ & Ea0); [lia|].
  unfold jerk_body.
  rewrite E1, bind_Ok, E0, bind_Ok, clamped_dt_positive.
  rewrite Ea1, bind_Ok, Ea0, bind_Ok, clamped_quotient_Ok, bind_Ok. eauto.
Qed.

Lemma kinematic_stroke_Ok (stroke : Stroke) (acc : KinematicLists) :
  exists acc', kinematic_stroke stroke acc = Ok acc'.
Proof.
  unfold kinematic_stroke. set (pts := default [] (points stroke)).
  destruct (length pts <? 2)%nat eqn:Hshort; [eauto|].
  apply Nat.ltb_ge in Hshort.
  destruct (velocity_loop_Ok pts (path_lengths acc)) as ([sv ls] & -> & Hsv).
  cbn [fst] in Hsv. rewrite bind_Ok.
  destruct (2 <=? length sv)%nat; [|eauto].
  destruct (acceleration_loop_Ok pts sv Hsv) as (sa & -> & Hsa).
  rewrite bind_Ok.
  destruct (2 <=? length sa)%nat; [|eauto].
  destruct (jerk_loop_Ok pts sa) as (sj & ->); [lia|].
  rewrite bind_Ok. eauto.
Qed.

Lemma for_each_total {A S : Type} (body : A -> S -> result S) (l : list A) :
  (forall a s, exists s', body a s = Ok s') ->
  forall s, exists s', for_each body l s = Ok s'.
Proof.
  intros Hbody. induction l as [|a l IH]; intros s; cbn [for_each]; [eauto|].
  destruct (Hbody a s) as (s1 & ->). rewrite bind_Ok. apply IH.
Qed.

Lemma compute_kinematic_features_Ok (self : FeatureEngineer)
    (strokes : list Stroke) :
  exists features, compute_kinematic_features self strokes = Ok features
                   /\ dom features = kinematic_keys.
Proof.
  unfold compute_kinematic_features. case_bool_decide.
  - eexists. split; [reflexivity|]. unfold _empty_kinematic_features.
    by rewrite dom_dict.
  - destruct (for_each_total kinematic_stroke strokes kinematic_stroke_Ok
                {| velocities := []; accelerations := []; jerks := [];
                   path_lengths := [] |}) as (acc & ->).
    rewrite bind_Ok.
    destruct (if_nonempty_mean (velocities acc)) as (? & ->); rewrite bind_Ok.
    destruct (if_nonempty_std (velocities acc)) as (? & ->); rewrite bind_Ok.
    destruct (if_nonempty_max (velocities acc)) as (? & ->); rewrite bind_Ok.
    destruct (if_nonempty_mean (accelerations acc)) as (? & ->); rewrite bind_Ok.
    destruct (if_nonempty_std (accelerations acc)) as (? & ->); rewrite bind_Ok.
    destruct (if_nonempty_mean (jerks acc)) as (? & ->); rewrite bind_Ok.
    destruct (if_nonempty_std (jerks acc)) as (? & ->); rewrite bind_Ok.
    destruct (if_nonempty_mean (path_lengths acc)) as (? & ->); rewrite bind_Ok.
    eexists. split; [reflexivity|].
    rewrite dom_update, dom_dict, dom_empty_L. cbn [map fst].
    unfold kinematic_keys. set_solver.
Qed.

(** ** The temporal extractor *)

Lemma pause_body_nonneg (strokes : list Stroke) (i : nat) (pauses : list Q) :
  (0 < i < length strokes)%nat ->
  Forall (fun p => 0 <= p) pauses ->
  exists pauses', pause_body strokes i pauses = Ok pauses'
                  /\ Forall (fun p => 0 <= p) pauses'.
Proof.
  intros Hi Hpos. unfold pause_body.
  destruct (index_lt strokes (i - 1)) as (prev & _ & ->); [lia|].
  destruct (index_lt strokes i) as (curr & _ & ->); [lia|].
  rewrite !bind_Ok.
  destruct (endTime prev) as [stop|], (startTime curr) as [start|]; eauto.
  eexists. split; [reflexivity|].
  apply Forall_app. split; [exact Hpos|].
  constructor; [apply py_max_lower | constructor].
Qed.

Lemma pause_loop_Ok (strokes : list Stroke) :
  exists pauses,
    for_each (pause_body strokes) (range 1 (length strokes)) [] = Ok pauses
    /\ Forall (fun p => 0 <= p) pauses.
Proof.
  apply (for_each_inv (pause_body strokes) (range 1 (length strokes))
           (fun _ pauses => Forall (fun p => 0 <= p) pauses) []);
    [constructor|].
  intros done i rest pauses Hsplit Hpos.
  apply range_split in Hsplit as [Hi Hlt].
  apply pause_body_nonneg; [lia | exact Hpos].
Qed.

Lemma compute_temporal_features_Ok (self : FeatureEngineer)
    (strokes : list Stroke) :
  exists features pauses,
    compute_temporal_features self strokes = Ok features
    /\ dom features = temporal_keys
    /\ for_each (pause_body strokes) (range 1 (length strokes)) [] = Ok pauses
    /\ Forall (fun p => 0 <= p) pauses
    /\ features !! "total_pause_time" = Some (py_sum pauses).
Proof.
  unfold compute_temporal_features. case_bool_decide as Hs.
  - subst strokes. exists (_empty_temporal_features self), [].
    split; [reflexivity|]. split.
    { unfold _empty_temporal_features. by rewrite dom_dict. }
    repeat split. constructor.
  - destruct (pause_loop_Ok strokes) as (pauses & E & Hpos).
    rewrite E, bind_Ok.
    set (durations := fold_left _ strokes []).
    destruct (if_nonempty_mean durations) as (? & ->); rewrite bind_Ok.
    destruct (if_nonempty_std durations) as (? & ->); rewrite bind_Ok.
    destruct (if_nonempty_max durations) as (? & ->); rewrite bind_Ok.
    destruct (if_nonempty_mean pauses) as (? & ->); rewrite bind_Ok.
    destruct (if_nonempty_std pauses) as (? & ->); rewrite bind_Ok.
    destruct (if_nonempty_max pauses) as (? & ->); rewrite bind_Ok.
    eexists; exists pauses. split; [reflexivity|]. split.
    { rewrite dom_update, dom_dict, dom_empty_L. cbn [map fst].
      unfold temporal_keys. set_solver. }
    split; [reflexivity|]. split; [exact Hpos|].
    vm_compute. reflexivity.
Qed.

(** ** The pressure extractor *)

Lemma compute_pressure_features_Ok (self : FeatureEngineer)
    (strokes : list Stroke) :
  let pressures := collect_pressures strokes in
  pressures <> [] ->
  exists m s lo hi,
    np_mean pressures = Ok m /\ np_std pressures = Ok s
    /\ np_min pressures = Ok lo /\ np_max pressures = Ok hi
    /\ compute_pressure_features self strokes =
         Ok (update ∅ (dict [
           ("pressure_mean", m); ("pressure_std", s);
           ("pressure_min", lo); ("pressure_max", hi);
           ("pressure_range", hi - lo);
           ("pressure_cv", if Qltb 0 m then s / m else 0)])).
Proof.
  intros pressures Hne. unfold compute_pressure_features. fold pressures.
  rewrite bool_decide_eq_false_2 by exact Hne.
  pose proof (np_mean_Ok pressures Hne) as Em.
  destruct (np_std_Ok pressures Hne) as (s & Es).
  destruct (np_min_Ok pressures Hne) as (lo & Elo).
  destruct (np_max_Ok pressures Hne) as (hi & Ehi).
  exists (py_sum pressures / len pressures), s, lo, hi.
  rewrite Em, Es, Elo, Ehi, !bind_Ok. repeat split.
  destruct (Qltb 0 (py_sum pressures / len pressures)) eqn:Hpos.
  - rewrite py_div_Ok; [reflexivity|]. apply Qltb_lt in Hpos. lra.
  - reflexivity.
Qed.

Lemma compute_pressure_features_total (self : FeatureEngineer)
    (strokes : list Stroke) :
  exists features, compute_pressure_features self strokes = Ok features
                   /\ dom features = pressure_keys.
Proof.
  destruct (decide (collect_pressures strokes = [])) as [He|Hne].
  - unfold compute_pressure_features. rewrite bool_decide_eq_true_2 by done.
    eexists. split; [reflexivity|].
    unfold _empty_pressure_features. by rewrite dom_dict.
  - destruct (compute_pressure_features_Ok self strokes Hne)
      as (m & s & lo & hi & _ & _ & _ & _ & ->).
    eexists. split; [reflexivity|].
    rewrite dom_update, dom_dict, dom_empty_L. cbn [map fst].
    unfold pressure_keys. set_solver.
Qed.

(** ** The spatial extractor *)

Lemma map_nonempty {A B : Type} (f : A -> B) (l : list A) :
  l <> [] -> map f l <> [].
Proof. destruct l; [done | discriminate]. Qed.

Lemma np_divide_finite (a b : Q) : ~ b == 0 -> np_divide a b = Finite (a / b).
Proof.
  intros H. unfold np_divide. destruct (Qeq_bool b 0) eqn:E; [|reflexivity].
  apply Qeq_bool_eq in E. contradiction.
Qed.

(** The entries of the record the spatial extractor builds by its two
    [features.update] calls. *)
Lemma spatial_entries (width height area coverage offset_x offset_y
    offset_total : number) :
  let features :=
    update
      (update ∅ (dict [
         ("bounding_box_width", width);
         ("bounding_box_height", height);
         ("bounding_box_area", area);
         ("canvas_coverage", coverage)]))
      (dict [
         ("center_offset_x", offset_x);
         ("center_offset_y", offset_y);
         ("center_offset_total", offset_total)]) in
  dom features = spatial_keys
  /\ features !! "bounding_box_width" = Some width
  /\ features !! "bounding_box_height" = Some height
  /\ features !! "bounding_box_area" = Some area
  /\ features !! "canvas_coverage" = Some coverage
  /\ features !! "center_offset_x" = Some offset_x
  /\ features !! "center_offset_y" = Some offset_y
  /\ features !! "center_offset_total" = Some offset_total.
Proof.
  intros features. split.
  { unfold features. rewrite !dom_update, !dom_dict, dom_empty_L.
    cbn [map fst]. unfold spatial_keys. set_solver. }
  do 6 (split; [vm_compute; reflexivity|]). vm_compute; reflexivity.
Qed.

(** The two ways a call of [compute_spatial_features] can end: the
    all-zero defaults, or the record of the seven entries, of which only
    [canvas_coverage] can be other than finite. *)
Lemma compute_spatial_features_cases (self : FeatureEngineer)
    (strokes : list Stroke) (canvas_size : CanvasSize) :
  let w := get "width" 1 canvas_size in
  let h := get "height" 1 canvas_size in
  let degenerate :=
    strokes = [] \/ canvas_size = ∅ \/ extract_all_points strokes = [] in
  (degenerate
   /\ compute_spatial_features self strokes canvas_size
      = Ok (_empty_spatial_features self))
  \/ (~ degenerate
      /\ exists features width height offset_x offset_y offset_total,
           compute_spatial_features self strokes canvas_size = Ok features
           /\ dom features = spatial_keys
           /\ features !! "bounding_box_width" = Some (Finite width)
           /\ features !! "bounding_box_height" = Some (Finite height)
           /\ features !! "bounding_box_area" = Some (Finite (width * height))
           /\ features !! "canvas_coverage"
              = Some (np_divide (width * height) (w * h))
           /\ features !! "center_offset_x" = Some (Finite offset_x)
           /\ features !! "center_offset_y" = Some (Finite offset_y)
           /\ features !! "center_offset_total" = Some (Finite offset_total)).
Proof.
  intros w h degenerate. unfold compute_spatial_features.
  destruct (decide (strokes = [])) as [Hs|Hs].
  { left. split; [by left|]. by rewrite (bool_decide_eq_true_2 _ Hs). }
  rewrite (bool_decide_eq_false_2 _ Hs). cbn [orb].
  destruct (decide (canvas_size = ∅)) as [Hc|Hc].
  { left. split; [by right; left|]. by rewrite (bool_decide_eq_true_2 _ Hc). }
  rewrite (bool_decide_eq_false_2 _ Hc).
  destruct (decide (extract_all_points strokes = [])) as [Hp|Hp].
  { left. split; [by right; right|]. by rewrite (bool_decide_eq_true_2 _ Hp). }
  rewrite (bool_decide_eq_false_2 _ Hp).
  assert (Hnd : ~ degenerate) by (unfold degenerate; tauto).
  right. split; [exact Hnd|].
  destruct (np_min_Ok _ (map_nonempty fst _ Hp)) as (min_x & ->).
  destruct (np_min_Ok _ (map_nonempty snd _ Hp)) as (min_y & ->).
  destruct (np_max_Ok _ (map_nonempty fst _ Hp)) as (max_x & ->).
  destruct (np_max_Ok _ (map_nonempty snd _ Hp)) as (max_y & ->).
  rewrite !bind_Ok. fold w h.
  rewrite !np_mean_Ok by (by apply map_nonempty). rewrite !bind_Ok.
  rewrite !py_div_Ok by lra. rewrite !bind_Ok.
  match goal with
  | |- context [np_sqrt (?a ^ 2 + ?b ^ 2)] =>
      destruct (np_sqrt_Ok _ (sum_squares_nonneg a b)) as (total & ->)
  end.
  rewrite bind_Ok.
  eexists; exists (max_x - min_x), (max_y - min_y). do 3 eexists.
  split; [reflexivity|]. apply spatial_entries.
Qed.

(** ** The session record of [DataLoader] *)

Lemma dom_metadata_record (session : Session) :
  dom (metadata_record session) = metadata_keys.
Proof. unfold metadata_record. by rewrite dom_dict. Qed.

Lemma _compute_stroke_features_Ok (self : DataLoader) (strokes : list Stroke) :
  exists features,
    _compute_stroke_features self strokes = Ok features
    /\ dom features ⊆ stroke_feature_keys
    /\ (strokes = [] -> features = ∅)
    /\ (strokes <> [] -> count_keys ⊆ dom features).
Proof.
  unfold _compute_stroke_features. case_bool_decide as Hs.
  { exists ∅. split; [reflexivity|]. split; [set_solver|]. split; [done|].
    intros Hne. done. }
  set (durations := fold_left _ strokes []).
  set (pressures := collect_pressures strokes).
  assert (Hd : exists features : gmap string value,
    (if bool_decide (durations = [])
     then Ok (<["total_points" :=
                  Num (py_sum (map (fun stroke : Stroke =>
                                      len (default [] (points stroke)))
                                   strokes))]>
                (<["stroke_count" := Num (len strokes)]> ∅))
     else
       mean ← np_mean durations;
       std ← np_std durations;
       Ok (<["total_drawing_time" := Num (py_sum durations)]>
             (<["stroke_duration_std" := Num std]>
                (<["stroke_duration_mean" := Num mean]>
                   (<["total_points" :=
                        Num (py_sum (map (fun stroke : Stroke =>
                                            len (default [] (points stroke)))
                                         strokes))]>
                      (<["stroke_count" := Num (len strokes)]> ∅))))))
    = Ok features
    /\ dom features ⊆ stroke_feature_keys /\ count_keys ⊆ dom features).
  { case_bool_decide as Hdur.
    - eexists. split; [reflexivity|].
      rewrite !dom_insert_L, dom_empty_L.
      unfold stroke_feature_keys, count_keys. set_solver.
    - rewrite (np_mean_Ok _ Hdur), bind_Ok.
      destruct (np_std_Ok _ Hdur) as (std & ->). rewrite bind_Ok.
      eexists. split; [reflexivity|].
      rewrite !dom_insert_L, dom_empty_L.
      unfold stroke_feature_keys, count_keys. set_solver. }
  destruct Hd as (f1 & -> & Hsub & Hcount). rewrite bind_Ok.
  case_bool_decide as Hpr.
  - exists f1. split; [reflexivity|]. split; [exact Hsub|]. split; done.
  - rewrite (np_mean_Ok _ Hpr), bind_Ok.
    destruct (np_std_Ok _ Hpr) as (std & ->). rewrite bind_Ok.
    destruct (np_min_Ok _ Hpr) as (lo & ->). rewrite bind_Ok.
    destruct (np_max_Ok _ Hpr) as (hi & ->). rewrite bind_Ok.
    eexists. split; [reflexivity|].
    rewrite !dom_insert_L. unfold stroke_feature_keys in *.
    split; [set_solver|]. split; [done|]. intros _. set_solver.
Qed.

Lemma extract_features_unfold (self : DataLoader) (session : Session) :
  extract_features self session =
  match session_strokes session with
  | Some ss =>
      stroke_features ← _compute_stroke_features self ss;
      Ok (update (metadata_record session) stroke_features)
  | None => Ok (metadata_record session)
  end.
Proof.
  unfold extract_features, session_strokes, metadata_record.
  destruct (data session) as [d|]; reflexivity.
Qed.

Lemma metadata_not_stroke_key (k : string) :
  k ∈ metadata_keys -> k ∉ stroke_feature_keys.
Proof.
  unfold metadata_keys, stroke_feature_keys.
  rewrite !elem_of_list_to_set, !list_elem_of_In. cbn [In].
  intros [<-|[<-|[<-|[]]]]; intros H;
    repeat (destruct H as [H|H]; [discriminate|]); exact H.
Qed.

Lemma extract_features_Ok (self : DataLoader) (session : Session) :
  exists features,
    extract_features self session = Ok features
    /\ (forall k, k ∈ metadata_keys ->
          features !! k = metadata_record session !! k)
    /\ metadata_keys ⊆ dom features
    /\ dom features ⊆ metadata_keys ∪ stroke_feature_keys
    /\ (session_strokes session = None \/ session_strokes session = Some [] ->
        features = metadata_record session)
    /\ (forall ss, session_strokes session = Some ss -> ss <> [] ->
        count_keys ⊆ dom features).
Proof.
  rewrite extract_features_unfold.
  destruct (session_strokes session) as [ss|] eqn:Hss.
  - destruct (_compute_stroke_features_Ok self ss)
      as (sf & -> & Hsub & Hempty & Hcount).
    rewrite bind_Ok. eexists. split; [reflexivity|].
    split; [|split; [|split; [|split]]].
    + intros k Hk. unfold update. apply lookup_union_r.
      apply not_elem_of_dom. intros Hin.
      exact (metadata_not_stroke_key k Hk (Hsub k Hin)).
    + rewrite dom_update, dom_metadata_record. set_solver.
    + rewrite dom_update, dom_metadata_record. set_solver.
    + intros [?|Hnil]; [done|]. injection Hnil as ->.
      rewrite (Hempty eq_refl). unfold update. by rewrite (left_id_L ∅ (∪)).
    + intros ss' [= <-] Hne. rewrite dom_update. specialize (Hcount Hne).
      set_solver.
  - eexists. split; [reflexivity|].
    split; [done|]. rewrite dom_metadata_record.
    split; [done|]. split; [set_solver|]. split; done.
Qed.

(** ** Bounds of the numeric primitives *)

Lemma np_sqrt_nonneg (q r : Q) : np_sqrt q = Ok r -> 0 <= r.
Proof.
  unfold np_sqrt. destruct (Qltb q 0); [discriminate|].
  intros [= <-]. apply sqrt_binary64_nonneg.
Qed.

Lemma py_max_cases (a b : Q) :
  py_max a b = a /\ b <= a \/ py_max a b = b /\ a < b.
Proof.
  unfold py_max. destruct (Qltb a b) eqn:E.
  - right. split; [reflexivity|]. by apply Qltb_lt.
  - left. split; [reflexivity|]. by apply Qltb_ge.
Qed.

Lemma py_min_cases (a b : Q) :
  py_min a b = a /\ a <= b \/ py_min a b = b /\ b < a.
Proof.
  unfold py_min. destruct (Qltb b a) eqn:E.
  - right. split; [reflexivity|]. by apply Qltb_lt.
  - left. split; [reflexivity|]. by apply Qltb_ge.
Qed.

Lemma fold_py_max (l : list Q) :
  forall x, let r := fold_left py_max l x in
            x <= r /\ Forall (fun y => y <= r) l /\ (r = x \/ In r l).
Proof.
  induction l as [|y l IH]; intros x; cbn [fold_left].
  - split; [lra|]. split; [constructor | by left].
  - destruct (IH (py_max x y)) as (Hge & Hall & Hin).
    destruct (py_max_cases x y) as [[E Hle]|[E Hlt]]; rewrite E in *.
    + split; [exact Hge|]. split; [constructor; [lra | exact Hall]|].
      destruct Hin as [->|Hin]; [by left | right; by right].
    + split; [lra|]. split; [constructor; [exact Hge | exact Hall]|].
      right. destruct Hin as [->|Hin]; [by left | by right].
Qed.

Lemma fold_py_min (l : list Q) :
  forall x, let r := fold_left py_min l x in
            r <= x /\ Forall (fun y => r <= y) l /\ (r = x \/ In r l).
Proof.
  induction l as [|y l IH]; intros x; cbn [fold_left].
  - split; [lra|]. split; [constructor | by left].
  - destruct (IH (py_min x y)) as (Hge & Hall & Hin).
    destruct (py_min_cases x y) as [[E Hle]|[E Hlt]]; rewrite E in *.
    + split; [exact Hge|]. split; [constructor; [lra | exact Hall]|].
      destruct Hin as [->|Hin]; [by left | right; by right].
    + split; [lra|]. split; [constructor; [exact Hge | exact Hall]|].
      right. destruct Hin as [->|Hin]; [by left | by right].
Qed.

Lemma np_max_spec (l : list Q) (v : Q) :
  np_max l = Ok v -> In v l /\ Forall (fun y => y <= v) l.
Proof.
  destruct l as [|x l]; [discriminate|]. intros [= <-].
  destruct (fold_py_max l x) as (Hge & Hall & Hin).
  split; [destruct Hin as [->|Hin]; [by left | by right]|].
  constructor; [exact Hge | exact Hall].
Qed.

Lemma np_min_spec (l : list Q) (v : Q) :
  np_min l = Ok v -> In v l /\ Forall (fun y => v <= y) l.
Proof.
  destruct l as [|x l]; [discriminate|]. intros [= <-].
  destruct (fold_py_min l x) as (Hge & Hall & Hin).
  split; [destruct Hin as [->|Hin]; [by left | by right]|].
  constructor; [exact Hge | exact Hall].
Qed.

Lemma py_sum_bounds (lo hi : Q) (l : list Q) :
  Forall (fun x => lo <= x <= hi) l ->
  len l * lo <= py_sum l <= len l * hi.
Proof.
  induction 1 as [|x l Hx _ IH].
  - change (0 * lo <= 0 <= 0 * hi). lra.
  - rewrite py_sum_cons, len_cons. lra.
Qed.

Lemma np_mean_bounds (lo hi m : Q) (l : list Q) :
  Forall (fun x => lo <= x <= hi) l -> np_mean l = Ok m -> lo <= m <= hi.
Proof.
  intros Hall Hm. destruct (decide (l = [])) as [->|Hne]; [discriminate|].
  rewrite (np_mean_Ok l Hne) in Hm. injection Hm as <-.
  pose proof (len_pos l Hne) as Hlen.
  destruct (py_sum_bounds lo hi l Hall) as [Hlo Hhi].
  split.
  - apply Qle_shift_div_l; lra.
  - apply Qle_shift_div_r; lra.
Qed.

Lemma np_std_nonneg (l : list Q) (s : Q) : np_std l = Ok s -> 0 <= s.
Proof.
  unfold np_std. destruct (np_mean l) as [m|]; [|discriminate].
  rewrite bind_Ok. destruct (np_mean _) as [v|]; [|discriminate].
  rewrite bind_Ok. apply np_sqrt_nonneg.
Qed.

(** A guarded statistic of a list of nonnegative numbers is nonnegative. *)
Lemma if_nonempty_mean_nonneg (l : list Q) (v : Q) :
  Forall (fun x => 0 <= x) l -> if_nonempty l np_mean = Ok v -> 0 <= v.
Proof.
  intros Hall. destruct l as [|x l]; [intros [= <-]; lra|].
  cbn [if_nonempty]. intros Hm.
  pose proof (py_sum_nonneg _ Hall) as Hsum.
  rewrite np_mean_Ok in Hm by discriminate. injection Hm as <-.
  apply Qle_shift_div_l; [by apply len_pos | lra].
Qed.

Lemma if_nonempty_std_nonneg (l : list Q) (v : Q) :
  if_nonempty l np_std = Ok v -> 0 <= v.
Proof.
  destruct l as [|x l]; [intros [= <-]; lra|]. apply np_std_nonneg.
Qed.

(** ** The lists of the kinematic extractor *)

Lemma velocity_loop_spec (pts : list Point) (ls0 : list Q) :
  exists sv ds,
    for_each (velocity_body pts) (range 1 (length pts)) ([], ls0)
    = Ok (sv, ls0 ++ ds)
    /\ length sv = (length pts - 1)%nat
    /\ length ds = (length pts - 1)%nat
    /\ Forall (fun v => 0 <= v) sv
    /\ Forall (fun d => 0 <= d) ds.
Proof.
  destruct (for_each_inv (velocity_body pts) (range 1 (length pts))
              (fun done s =>
                 exists ds, snd s = ls0 ++ ds
                            /\ length (fst s) = length done
                            /\ length ds = length done
                            /\ Forall (fun v => 0 <= v) (fst s)
                            /\ Forall (fun d => 0 <= d) ds)
              ([], ls0))
    as ([sv ls] & E & ds & Hls & Hsv & Hds & Hpos & Hdpos).
  - exists []. cbn. by rewrite app_nil_r.
  - intros done i rest [sv ls] Hsplit (ds & Hls & Hsv & Hds & Hpos & Hdpos).
    cbn [fst snd] in *. subst ls.
    apply range_split in Hsplit as [Hi Hlt].
    destruct (index_lt pts (i - 1)) as (p0 & _ & E0); [lia|].
    destruct (index_lt pts i) as (p1 & _ & E1); [lia|].
    unfold velocity_body. rewrite E0, bind_Ok, E1, bind_Ok.
    destruct (np_sqrt_Ok _ (sum_squares_nonneg
                (get "x" 0 p1 - get "x" 0 p0) (get "y" 0 p1 - get "y" 0 p0)))
      as (dist & Ed).
    pose proof (np_sqrt_nonneg _ _ Ed) as Hdist.
    rewrite Ed, bind_Ok, clamped_dt_positive, clamped_quotient_Ok, bind_Ok.
    eexists. split; [reflexivity|]. cbn [fst snd].
    exists (ds ++ [dist]). rewrite !length_app. cbn [length].
    split; [by rewrite app_assoc|]. split; [lia|]. split; [lia|].
    split; apply Forall_app; (split; [assumption|]);
      (constructor; [|constructor]); [|exact Hdist].
    pose proof (py_max_lower 1
                  (get "timestamp" 0 p1 - get "timestamp" 0 p0)).
    apply Qle_shift_div_l; lra.
  - cbn [fst snd] in *. subst ls. exists sv, ds.
    rewrite length_range in Hsv, Hds. by repeat split.
Qed.

Lemma jerk_loop_length (pts : list Point) (sa : list Q) :
  (length sa + 2 <= length pts)%nat ->
  exists sj, for_each (jerk_body pts sa) (range 1 (length sa)) [] = Ok sj
             /\ length sj = (length sa - 1)%nat.
Proof.
  intros Hsa.
  destruct (for_each_inv (jerk_body pts sa) (range 1 (length sa))
              (fun done sj => length sj = length done) [] eq_refl)
    as (sj & E & Hlen).
  - intros done i rest sj Hsplit Hinv.
    apply range_split in Hsplit as [Hi Hlt].
    destruct (index_lt pts (i + 2)) as (p1 & _ & E1); [lia|].
    destruct (index_lt pts (i + 1)) as (p0 & _ & E0); [lia|].
    destruct (index_lt sa i) as (a1 & _ & Ea1); [lia|].
    destruct (index_lt sa (i - 1)) as (a0 & _ & Ea0); [lia|].
    unfold jerk_body.
    rewrite E1, bind_Ok, E0, bind_Ok, clamped_dt_positive.
    rewrite Ea1, bind_Ok, Ea0, bind_Ok, clamped_quotient_Ok, bind_Ok.
    eexists. split; [reflexivity|]. rewrite !length_app. cbn [length]. lia.
  - exists sj. split; [exact E|]. by rewrite Hlen, length_range.
Qed.

(** One stroke appends its samples to the four lists and leaves what they
    held in place. *)
Lemma kinematic_stroke_spec (stroke : Stroke) (acc : KinematicLists) :
  exists sv sa sj ds,
    kinematic_stroke stroke acc
    = Ok {| velocities := velocities acc ++ sv;
            accelerations := accelerations acc ++ sa;
            jerks := jerks acc ++ sj;
            path_lengths := path_lengths acc ++ ds |}
    /\ length sv = (point_count stroke - 1)%nat
    /\ length ds = (point_count stroke - 1)%nat
    /\ length sa = (point_count stroke - 2)%nat
    /\ length sj = (point_count stroke - 3)%nat
    /\ Forall (fun v => 0 <= v) sv
    /\ Forall (fun d => 0 <= d) ds.
Proof.
  unfold kinematic_stroke, point_count.
  set (pts := default [] (points stroke)).
  destruct (length pts <? 2)%nat eqn:Hshort.
  { apply Nat.ltb_lt in Hshort. exists [], [], [], [].
    rewrite !app_nil_r. destruct acc. cbn.
    repeat split; try constructor; lia. }
  apply Nat.ltb_ge in Hshort.
  destruct (velocity_loop_spec pts (path_lengths acc))
    as (sv & ds & -> & Hsv & Hds & Hpos & Hdpos).
  rewrite bind_Ok.
  destruct (2 <=? length sv)%nat eqn:H2.
  2:{ apply Nat.leb_gt in H2. exists sv, [], [], ds. rewrite !app_nil_r.
      repeat split; try assumption; cbn [length]; lia. }
  apply Nat.leb_le in H2.
  destruct (acceleration_loop_Ok pts sv Hsv) as (sa & -> & Hsa).
  rewrite bind_Ok.
  destruct (2 <=? length sa)%nat eqn:H3.
  2:{ apply Nat.leb_gt in H3. exists sv, sa, [], ds. rewrite !app_nil_r.
      repeat split; try assumption; cbn [length]; lia. }
  apply Nat.leb_le in H3.
  destruct (jerk_loop_length pts sa) as (sj & -> & Hsj); [lia|].
  rewrite bind_Ok. exists sv, sa, sj, ds.
  repeat split; try assumption; lia.
Qed.

Lemma kinematic_lists_spec (strokes : list Stroke) :
  exists acc,
    kinematic_lists strokes = Ok acc
    /\ length (velocities acc)
       = sum_list_with (fun s => point_count s - 1)%nat strokes
    /\ length (path_lengths acc)
       = sum_list_with (fun s => point_count s - 1)%nat strokes
    /\ length (accelerations acc)
       = sum_list_with (fun s => point_count s - 2)%nat strokes
    /\ length (jerks acc)
       = sum_list_with (fun s => point_count s - 3)%nat strokes
    /\ Forall (fun v => 0 <= v) (velocities acc)
    /\ Forall (fun d => 0 <= d) (path_lengths acc).
Proof.
  unfold kinematic_lists.
  apply (for_each_inv kinematic_stroke strokes
           (fun done acc =>
              length (velocities acc)
              = sum_list_with (fun s => point_count s - 1)%nat done
              /\ length (path_lengths acc)
                 = sum_list_with (fun s => point_count s - 1)%nat done
              /\ length (accelerations acc)
                 = sum_list_with (fun s => point_count s - 2)%nat done
              /\ length (jerks acc)
                 = sum_list_with (fun s => point_count s - 3)%nat done
              /\ Forall (fun v => 0 <= v) (velocities acc)
              /\ Forall (fun d => 0 <= d) (path_lengths acc))).
  { cbn. by repeat split. }
  intros done stroke rest acc _ (Hv & Hp & Ha & Hj & Hvpos & Hppos).
  destruct (kinematic_stroke_spec stroke acc)
    as (sv & sa & sj & ds & -> & Hsv & Hds & Hsa & Hsj & Hpos & Hdpos).
  eexists. split; [reflexivity|]. cbn [velocities accelerations jerks path_lengths].
  rewrite !length_app, !sum_list_with_app. cbn [sum_list_with].
  repeat split; try lia; apply Forall_app; by split.
Qed.

Lemma compute_kinematic_features_lists (self : FeatureEngineer)
    (strokes : list Stroke) (acc : KinematicLists) :
  strokes <> [] ->
  kinematic_lists strokes = Ok acc ->
  exists velocity_mean velocity_std velocity_max acceleration_mean
         acceleration_std jerk_mean jerk_std path_length_mean,
    if_nonempty (velocities acc) np_mean = Ok velocity_mean
    /\ if_nonempty (velocities acc) np_std = Ok velocity_std
    /\ if_nonempty (velocities acc) np_max = Ok velocity_max
    /\ if_nonempty (accelerations acc) np_mean = Ok acceleration_mean
    /\ if_nonempty (accelerations acc) np_std = Ok acceleration_std
    /\ if_nonempty (jerks acc) np_mean = Ok jerk_mean
    /\ if_nonempty (jerks acc) np_std = Ok jerk_std
    /\ if_nonempty (path_lengths acc) np_mean = Ok path_length_mean
    /\ compute_kinematic_features self strokes
       = Ok (update ∅ (dict [
           ("velocity_mean", velocity_mean);
           ("velocity_std", velocity_std);
           ("velocity_max", velocity_max);
           ("acceleration_mean", acceleration_mean);
           ("acceleration_std", acceleration_std);
           ("jerk_mean", jerk_mean);
           ("jerk_std", jerk_std);
           ("path_length_total", py_sum (path_lengths acc));
           ("path_length_mean", path_length_mean)])).
Proof.
  intros Hne Hacc. unfold compute_kinematic_features.
  rewrite bool_decide_eq_false_2 by exact Hne.
  unfold kinematic_lists in Hacc. rewrite Hacc, bind_Ok.
  destruct (if_nonempty_mean (velocities acc)) as (vm & Evm).
  destruct (if_nonempty_std (velocities acc)) as (vs & Evs).
  destruct (if_nonempty_max (velocities acc)) as (vx & Evx).
  destruct (if_nonempty_mean (accelerations acc)) as (am & Eam).
  destruct (if_nonempty_std (accelerations acc)) as (as' & Eas).
  destruct (if_nonempty_mean (jerks acc)) as (jm & Ejm).
  destruct (if_nonempty_std (jerks acc)) as (js & Ejs).
  destruct (if_nonempty_mean (path_lengths acc)) as (pm & Epm).
  exists vm, vs, vx, am, as', jm, js, pm.
  rewrite Evm, Evs, Evx, Eam, Eas, Ejm, Ejs, Epm, !bind_Ok.
  by repeat split.
Qed.

Lemma update_empty {V : Type} (e : gmap string V) : update ∅ e = e.
Proof. unfold update. by rewrite (right_id_L ∅ (∪)). Qed.

(** The record of the kinematic extractor in terms of its four lists, for
    every stroke list (the empty one included). *)
Lemma kinematic_record (self : FeatureEngineer) (strokes : list Stroke) :
  exists acc velocity_mean velocity_std velocity_max acceleration_mean
         acceleration_std jerk_mean jerk_std path_length_mean,
    kinematic_lists strokes = Ok acc
    /\ if_nonempty (velocities acc) np_mean = Ok velocity_mean
    /\ if_nonempty (velocities acc) np_std = Ok velocity_std
    /\ if_nonempty (velocities acc) np_max = Ok velocity_max
    /\ if_nonempty (accelerations acc) np_mean = Ok acceleration_mean
    /\ if_nonempty (accelerations acc) np_std = Ok acceleration_std
    /\ if_nonempty (jerks acc) np_mean = Ok jerk_mean
    /\ if_nonempty (jerks acc) np_std = Ok jerk_std
    /\ if_nonempty (path_lengths acc) np_mean = Ok path_length_mean
    /\ compute_kinematic_features self strokes
       = Ok (dict [
           ("velocity_mean", velocity_mean);
           ("velocity_std", velocity_std);
           ("velocity_max", velocity_max);
           ("acceleration_mean", acceleration_mean);
           ("acceleration_std", acceleration_std);
           ("jerk_mean", jerk_mean);
           ("jerk_std", jerk_std);
           ("path_length_total", py_sum (path_lengths acc));
           ("path_length_mean", path_length_mean)]).
Proof.
  destruct (decide (strokes = [])) as [->|Hne].
  - eexists; exists 0, 0, 0, 0, 0, 0, 0, 0. by repeat split.
  - destruct (kinematic_lists_spec strokes) as (acc & Hacc & _).
    destruct (compute_kinematic_features_lists self strokes acc Hne Hacc)
      as (vm & vs & vx & am & as' & jm & js & pm
          & Evm & Evs & Evx & Eam & Eas & Ejm & Ejs & Epm & ->).
    exists acc, vm, vs, vx, am, as', jm, js, pm.
    rewrite update_empty. by repeat split.
Qed.

Lemma length_zero_nil {A : Type} (l : list A) : length l = 0%nat -> l = [].
Proof. by destruct l. Qed.

Lemma sum_list_with_zero {A : Type} (f : A -> nat) (l : list A) :
  Forall (fun a => f a = 0%nat) l -> sum_list_with f l = 0%nat.
Proof.
  induction 1 as [|a l Ha _ IH]; [reflexivity|].
  cbn [sum_list_with]. lia.
Qed.

Lemma compute_kinematic_features_short (self : FeatureEngineer)
    (strokes : list Stroke) :
  Forall (fun stroke => (point_count stroke < 2)%nat) strokes ->
  compute_kinematic_features self strokes
  = Ok (_empty_kinematic_features self).
Proof.
  intros Hshort.
  destruct (kinematic_record self strokes)
    as (acc & vm & vs & vx & am & as' & jm & js & pm & Hacc
        & Evm & Evs & Evx & Eam & Eas & Ejm & Ejs & Epm & ->).
  destruct (kinematic_lists_spec strokes)
    as (acc' & Hacc' & Hv & Hp & Ha & Hj & _).
  rewrite Hacc in Hacc'. injection Hacc' as <-.
  rewrite sum_list_with_zero in Hv, Hp
    by (eapply Forall_impl; [exact Hshort | cbn; lia]).
  rewrite sum_list_with_zero in Ha
    by (eapply Forall_impl; [exact Hshort | cbn; lia]).
  rewrite sum_list_with_zero in Hj
    by (eapply Forall_impl; [exact Hshort | cbn; lia]).
  apply length_zero_nil in Hv, Hp, Ha, Hj.
  rewrite Hv in Evm, Evs, Evx. rewrite Ha in Eam, Eas.
  rewrite Hj in Ejm, Ejs. rewrite Hp in Epm. rewrite Hp.
  cbn in Evm, Evs, Evx, Eam, Eas, Ejm, Ejs, Epm.
  injection Evm as <-. injection Evs as <-. injection Evx as <-.
  injection Eam as <-. injection Eas as <-. injection Ejm as <-.
  injection Ejs as <-. injection Epm as <-.
  reflexivity.
Qed.

Lemma np_min_le_max (l : list Q) (lo hi : Q) :
  np_min l = Ok lo -> np_max l = Ok hi -> lo <= hi.
Proof.
  intros Hlo Hhi. destruct (np_min_spec _ _ Hlo) as [Hin _].
  destruct (np_max_spec _ _ Hhi) as [_ Hall].
  rewrite Forall_forall in Hall. apply Hall. by apply list_elem_of_In.
Qed.

(** ** The samples of the kinematic extractor *)

Lemma py_sum_ge_elem (l : list Q) (x : Q) :
  Forall (fun y => 0 <= y) l -> In x l -> x <= py_sum l.
Proof.
  induction 1 as [|y l Hy Hl IH]; intros Hin; [destruct Hin|].
  rewrite py_sum_cons. pose proof (py_sum_nonneg l Hl).
  destruct Hin as [->|Hin]; [lra|]. specialize (IH Hin). lra.
Qed.

(** The velocity loop of a stroke holds, for the pair of points [i - 1]
    and [i], the distance between them and that distance over the clamped
    time delta, at the position [i - 1] of its two lists. *)
Lemma velocity_loop_samples (pts : list Point) (ls0 : list Q) :
  exists sv ds,
    for_each (velocity_body pts) (range 1 (length pts)) ([], ls0)
    = Ok (sv, ls0 ++ ds)
    /\ forall i p0 p1,
         (0 < i)%nat -> pts !! (i - 1)%nat = Some p0 -> pts !! i = Some p1 ->
         exists dist,
           np_sqrt ((get "x" 0 p1 - get "x" 0 p0) ^ 2
                    + (get "y" 0 p1 - get "y" 0 p0) ^ 2) = Ok dist
           /\ sv !! (i - 1)%nat
              = Some (dist / py_max 1 (get "timestamp" 0 p1
                                       - get "timestamp" 0 p0))
           /\ ds !! (i - 1)%nat = Some dist.
Proof.
  destruct (for_each_inv (velocity_body pts) (range 1 (length pts))
              (fun done s =>
                 exists ds,
                   snd s = ls0 ++ ds
                   /\ length (fst s) = length done
                   /\ length ds = length done
                   /\ forall i p0 p1,
                        (0 < i)%nat -> (i - 1 < length done)%nat ->
                        pts !! (i - 1)%nat = Some p0 -> pts !! i = Some p1 ->
                        exists dist,
                          np_sqrt ((get "x" 0 p1 - get "x" 0 p0) ^ 2
                                   + (get "y" 0 p1 - get "y" 0 p0) ^ 2)
                          = Ok dist
                          /\ fst s !! (i - 1)%nat
                             = Some (dist / py_max 1 (get "timestamp" 0 p1
                                                      - get "timestamp" 0 p0))
                          /\ ds !! (i - 1)%nat = Some dist)
              ([], ls0))
    as ([sv ls] & E & ds & Hls & Hsv & Hds & Hsamples).
  - exists []. cbn. split; [by rewrite app_nil_r|].
    split; [done|]. split; [done|]. intros; lia.
  - intros done i rest [sv ls] Hsplit (ds & Hls & Hsv & Hds & Hsamples).
    cbn [fst snd] in *. subst ls.
    apply range_split in Hsplit as [Hi Hlt].
    destruct (index_lt pts (i - 1)) as (p0 & Hp0 & E0); [lia|].
    destruct (index_lt pts i) as (p1 & Hp1 & E1); [lia|].
    unfold velocity_body. rewrite E0, bind_Ok, E1, bind_Ok.
    destruct (np_sqrt_Ok _ (sum_squares_nonneg
                (get "x" 0 p1 - get "x" 0 p0) (get "y" 0 p1 - get "y" 0 p0)))
      as (dist & Ed).
    rewrite Ed, bind_Ok, clamped_dt_positive, clamped_quotient_Ok, bind_Ok.
    eexists. split; [reflexivity|]. cbn [fst snd].
    exists (ds ++ [dist]). rewrite !length_app. cbn [length].
    split; [by rewrite app_assoc|]. split; [lia|]. split; [lia|].
    intros j q0 q1 Hj Hlt' Hq0 Hq1.
    destruct (decide (j - 1 < length done)%nat) as [Hold|Hnew].
    + destruct (Hsamples j q0 q1 Hj Hold Hq0 Hq1) as (d & Hd & Hv & Hl).
      exists d. split; [exact Hd|].
      split; (rewrite lookup_app_l by lia); assumption.
    + assert (j = i) by lia. subst j.
      rewrite Hp0 in Hq0. rewrite Hp1 in Hq1.
      injection Hq0 as <-. injection Hq1 as <-.
      exists dist. split; [exact Ed|].
      split; (rewrite lookup_app_r by lia);
        [replace (i - 1 - length sv)%nat with 0%nat by lia
        |replace (i - 1 - length ds)%nat with 0%nat by lia]; reflexivity.
  - cbn [fst snd] in *. subst ls. exists sv, ds. split; [exact E|].
    intros i p0 p1 Hi Hp0 Hp1.
    apply (Hsamples i p0 p1 Hi); [|exact Hp0|exact Hp1].
    rewrite length_range. apply lookup_lt_Some in Hp1. lia.
Qed.

(** What a stroke of two points or more adds to the velocities and the
    path lengths is what its velocity loop returns. *)
Lemma kinematic_stroke_velocities (stroke : Stroke)
    (acc acc' : KinematicLists) (sv ls : list Q) :
  let pts := default [] (points stroke) in
  (2 <= length pts)%nat ->
  for_each (velocity_body pts) (range 1 (length pts)) ([], path_lengths acc)
  = Ok (sv, ls) ->
  kinematic_stroke stroke acc = Ok acc' ->
  velocities acc' = velocities acc ++ sv /\ path_lengths acc' = ls.
Proof.
  intros pts Hlen Hloop. unfold kinematic_stroke. fold pts.
  rewrite (proj2 (Nat.ltb_ge _ _) Hlen), Hloop, bind_Ok.
  destruct (2 <=? length sv)%nat.
  - destruct (for_each (acceleration_body pts sv) _ _) as [sa|e];
      [rewrite bind_Ok | intros H; cbn in H; discriminate].
    destruct (2 <=? length sa)%nat.
    + destruct (for_each (jerk_body pts sa) _ _) as [sj|e];
        [rewrite bind_Ok | intros H; cbn in H; discriminate].
      by intros [= <-].
    + by intros [= <-].
  - by intros [= <-].
Qed.

Lemma kinematic_stroke_samples (stroke : Stroke) (acc : KinematicLists) :
  exists acc',
    kinematic_stroke stroke acc = Ok acc'
    /\ (exists sv, velocities acc' = velocities acc ++ sv)
    /\ (exists ds, path_lengths acc' = path_lengths acc ++ ds)
    /\ forall pts i p0 p1,
         points stroke = Some pts -> (0 < i)%nat ->
         pts !! (i - 1)%nat = Some p0 -> pts !! i = Some p1 ->
         exists dist,
           np_sqrt ((get "x" 0 p1 - get "x" 0 p0) ^ 2
                    + (get "y" 0 p1 - get "y" 0 p0) ^ 2) = Ok dist
           /\ In (dist / py_max 1 (get "timestamp" 0 p1
                                   - get "timestamp" 0 p0))
                 (velocities acc')
           /\ In dist (path_lengths acc').
Proof.
  destruct (kinematic_stroke_spec stroke acc)
    as (sv & sa & sj & ds & E & _).
  eexists. split; [exact E|]. cbn [velocities path_lengths].
  split; [eauto|]. split; [eauto|].
  intros pts i p0 p1 Hpts Hi Hp0 Hp1.
  destruct (velocity_loop_samples pts (path_lengths acc))
    as (sv' & ds' & Eloop & Hsamples).
  destruct (Hsamples i p0 p1 Hi Hp0 Hp1) as (dist & Ed & Hv & Hl).
  assert (Hlen : (2 <= length pts)%nat).
  { apply lookup_lt_Some in Hp1. lia. }
  pose proof (fun acc' => kinematic_stroke_velocities stroke acc acc' sv'
                            (path_lengths acc ++ ds')) as Hsame.
  rewrite Hpts in Hsame. cbn [default] in Hsame.
  destruct (Hsame _ Hlen Eloop E) as [Ev El]. cbn [velocities path_lengths] in *.
  apply app_inv_head in Ev, El. subst sv' ds'.
  exists dist. split; [exact Ed|].
  split; apply in_or_app; right; apply list_elem_of_In;
    eapply list_elem_of_lookup_2; eassumption.
Qed.

(** Every consecutive pair of points of every stroke of a session has its
    sample among the pooled velocities and path lengths. *)
Lemma kinematic_lists_samples (strokes : list Stroke) :
  exists lists,
    kinematic_lists strokes = Ok lists
    /\ forall stroke pts i p0 p1,
         In stroke strokes -> points stroke = Some pts -> (0 < i)%nat ->
         pts !! (i - 1)%nat = Some p0 -> pts !! i = Some p1 ->
         exists dist,
           np_sqrt ((get "x" 0 p1 - get "x" 0 p0) ^ 2
                    + (get "y" 0 p1 - get "y" 0 p0) ^ 2) = Ok dist
           /\ In (dist / py_max 1 (get "timestamp" 0 p1
                                   - get "timestamp" 0 p0))
                 (velocities lists)
           /\ In dist (path_lengths lists).
Proof.
  unfold kinematic_lists.
  apply (for_each_inv kinematic_stroke strokes
           (fun done acc =>
              forall stroke pts i p0 p1,
                In stroke done -> points stroke = Some pts -> (0 < i)%nat ->
                pts !! (i - 1)%nat = Some p0 -> pts !! i = Some p1 ->
                exists dist,
                  np_sqrt ((get "x" 0 p1 - get "x" 0 p0) ^ 2
                           + (get "y" 0 p1 - get "y" 0 p0) ^ 2) = Ok dist
                  /\ In (dist / py_max 1 (get "timestamp" 0 p1
                                          - get "timestamp" 0 p0))
                        (velocities acc)
                  /\ In dist (path_lengths acc))).
  { intros ? ? ? ? ? []. }
  intros done stroke rest acc _ Hinv.
  destruct (kinematic_stroke_samples stroke acc)
    as (acc' & E & (sv & Hsv) & (ds & Hds) & Hnew).
  exists acc'. split; [exact E|].
  intros s pts i p0 p1 Hin Hpts Hi Hp0 Hp1.
  apply in_app_or in Hin as [Hin|[<-|[]]].
  - destruct (Hinv s pts i p0 p1 Hin Hpts Hi Hp0 Hp1) as (dist & Ed & Hv & Hl).
    exists dist. rewrite Hsv, Hds. split; [exact Ed|].
    split; apply in_or_app; by left.
  - exact (Hnew pts i p0 p1 Hpts Hi Hp0 Hp1).
Qed.

(** ** The pressure extractor over float64 *)







(** The entries of the record the pressure extractor builds. *)
Lemma pressure_entries (mean std lo hi range cv : Q) :
  let features :=
    update ∅ (dict [
      ("pressure_mean", mean); ("pressure_std", std);
      ("pressure_min", lo); ("pressure_max", hi);
      ("pressure_range", range); ("pressure_cv", cv)]) in
  features !! "pressure_mean" = Some mean
  /\ features !! "pressure_std" = Some std
  /\ features !! "pressure_min" = Some lo
  /\ features !! "pressure_max" = Some hi
  /\ features !! "pressure_range" = Some range
  /\ features !! "pressure_cv" = Some cv.
Proof.
  intros features.
  do 5 (split; [vm_compute; reflexivity|]). vm_compute; reflexivity.
Qed.


(** ** The degenerate inputs of the spatial extractor *)

Lemma extract_all_points_pooled (strokes : list Stroke) :
  extract_all_points strokes
  = map (fun p : Point => (get "x" 0 p, get "y" 0 p)) (pooled_points strokes).
Proof.
  unfold extract_all_points, pooled_points.
  induction strokes as [|s l IH]; [reflexivity|].
  cbn [flat_map]. by rewrite map_app, IH.
Qed.

Lemma compute_spatial_features_degenerate (self : FeatureEngineer)
    (strokes : list Stroke) (canvas_size : CanvasSize) :
  strokes = [] \/ canvas_size = ∅ \/ pooled_points strokes = [] ->
  compute_spatial_features self strokes canvas_size
  = Ok (_empty_spatial_features self).
Proof.
  intros Hdeg.
  assert (Hdeg' : strokes = [] \/ canvas_size = ∅
                  \/ extract_all_points strokes = []).
  { destruct Hdeg as [?|[?|Hp]]; [tauto | tauto |].
    right; right. by rewrite extract_all_points_pooled, Hp. }
  destruct (compute_spatial_features_cases self strokes canvas_size)
    as [(_ & ->)|(Hnd & _)]; [reflexivity | by destruct Hnd].
Qed.

(** * The claims *)

(** C9.  In the acceleration and jerk loops the raw point accesses
    [points[i+1]] and [points[i+2]], like every other list access of the
    kinematic extractor, stay in bounds: for every accumulator and stroke
    the loop body returns, and for every stroke list the extractor returns
    a record, so no [IndexError] (nor any other exception) can occur. *)
Theorem kinematic_indexing_in_bounds (self : FeatureEngineer)
    (strokes : list Stroke) (stroke : Stroke) (acc : KinematicLists) :
  (exists acc', kinematic_stroke stroke acc = Ok acc')
  /\ (exists features, compute_kinematic_features self strokes = Ok features)
  /\ compute_kinematic_features self strokes <> Raise IndexError.
Proof.
  split; [apply kinematic_stroke_Ok|].
  destruct (compute_kinematic_features_Ok self strokes) as (features & E & _).
  split; [eauto | by rewrite E].
Qed.

(** C5.  For a consecutive pair of points of a stroke of the session whose
    timestamps are equal or decreasing, the velocity loop clamps the time
    delta to 1 and appends the velocity [dist / 1] and the path length
    [dist]; the division cannot fail.  The extractor returns a record that
    accounts for the sample: [dist / 1] is among the pooled velocities and
    [dist] among the pooled path lengths, so [velocity_max] is at least
    [dist / 1] and [path_length_total], the sum of the path lengths, at
    least [dist]. *)
Theorem velocity_dt_clamped (self : FeatureEngineer) (strokes : list Stroke)
    (stroke : Stroke) (pts : list Point) (i : nat) (p0 p1 : Point)
    (stroke_velocities lengths : list Q) :
  In stroke strokes ->
  points stroke = Some pts ->
  (0 < i)%nat ->
  pts !! (i - 1)%nat = Some p0 ->
  pts !! i = Some p1 ->
  get "timestamp" 0 p1 <= get "timestamp" 0 p0 ->
  py_max 1 (get "timestamp" 0 p1 - get "timestamp" 0 p0) = 1
  /\ exists dist,
       np_sqrt ((get "x" 0 p1 - get "x" 0 p0) ^ 2
                + (get "y" 0 p1 - get "y" 0 p0) ^ 2) = Ok dist
       /\ velocity_body pts i (stroke_velocities, lengths)
          = Ok (stroke_velocities ++ [dist / 1], lengths ++ [dist])
       /\ exists lists features velocity_max,
            kinematic_lists strokes = Ok lists
            /\ In (dist / 1) (velocities lists)
            /\ In dist (path_lengths lists)
            /\ compute_kinematic_features self strokes = Ok features
            /\ features !! "velocity_max" = Some velocity_max
            /\ dist / 1 <= velocity_max
            /\ features !! "path_length_total"
               = Some (py_sum (path_lengths lists))
            /\ dist <= py_sum (path_lengths lists).
Proof.
  intros Hin Hpts Hi H0 H1 Ht.
  assert (Hdt : py_max 1 (get "timestamp" 0 p1 - get "timestamp" 0 p0) = 1)
    by (apply py_max_clamp; lra).
  split; [exact Hdt|].
  destruct (kinematic_lists_samples strokes) as (lists & Hlists & Hsamples).
  destruct (Hsamples stroke pts i p0 p1 Hin Hpts Hi H0 H1)
    as (dist & Ed & Hv & Hl).
  rewrite Hdt in Hv.
  exists dist. split; [exact Ed|]. split.
  { unfold velocity_body.
    rewrite (index_Some _ _ _ H0), bind_Ok, (index_Some _ _ _ H1), bind_Ok.
    rewrite Ed, bind_Ok, clamped_dt_positive, clamped_quotient_Ok, bind_Ok.
    rewrite Hdt. reflexivity. }
  destruct (kinematic_record self strokes)
    as (acc & vm & vs & vx & am & as' & jm & js & pm & Hacc
        & _ & _ & Evx & _ & _ & _ & _ & _ & ->).
  rewrite Hlists in Hacc. injection Hacc as <-.
  destruct (kinematic_lists_spec strokes)
    as (acc' & Hacc' & _ & _ & _ & _ & _ & Hppos).
  rewrite Hlists in Hacc'. injection Hacc' as <-.
  exists lists. eexists. exists vx.
  split; [exact Hlists|]. split; [exact Hv|]. split; [exact Hl|].
  split; [reflexivity|]. split; [vm_compute; reflexivity|]. split.
  { destruct (velocities lists) as [|v l] eqn:Hvl; [destruct Hv|].
    cbn [if_nonempty] in Evx. destruct (np_max_spec _ _ Evx) as [_ Hmax].
    rewrite Forall_forall in Hmax. apply Hmax. by apply list_elem_of_In. }
  split; [vm_compute; reflexivity|]. by apply py_sum_ge_elem.
Qed.

(** Two points at the same instant, 3-4-5 apart: the velocity is 5 / 1,
    and the record of the session made of that stroke reports it. *)
Lemma velocity_dt_clamped_witness :
  velocity_body [point 0 0 70 0.5; point 3 4 70 0.5] 1 ([], [])
  = Ok ([5 / 1], [5])
  /\ exists features velocity_max,
       compute_kinematic_features FeatureEngineer_init [simultaneous_stroke]
       = Ok features
       /\ features !! "velocity_max" = Some velocity_max
       /\ 5 / 1 <= velocity_max.
Proof.
  destruct (velocity_dt_clamped FeatureEngineer_init [simultaneous_stroke]
              simultaneous_stroke
              [point 0 0 70 0.5; point 3 4 70 0.5] 1
              (point 0 0 70 0.5) (point 3 4 70 0.5) [] [])
    as (_ & dist & Ed & Ev & lists & features & vx & _ & _ & _
        & E & Hvx & Hle & _).
  - by left.
  - reflexivity.
  - lia.
  - reflexivity.
  - reflexivity.
  - vm_compute. discriminate.
  - vm_compute in Ed. injection Ed as <-.
    split; [exact Ev|]. exists features, vx. by repeat split.
Defined.






(** ** Batches *)

(** The loader a method is called on does not enter the record. *)
Lemma extract_features_self (self other : DataLoader) (session : Session) :
  extract_features self session = extract_features other session.
Proof. reflexivity. Qed.

(** The row loop of [create_dataset] appends, to the rows it starts from,
    the record of each session in turn. *)
Lemma create_dataset_loop (self other : DataLoader) (batch : list Session) :
  exists rows,
    for_each (fun session rows =>
                features ← extract_features self session;
                Ok (rows ++ [features]))
             batch [] = Ok rows
    /\ Forall2 (fun session row => extract_features other session = Ok row)
               batch rows.
Proof.
  apply (for_each_inv _ batch
           (fun done rows =>
              Forall2 (fun session row =>
                         extract_features other session = Ok row) done rows));
    [constructor|].
  intros done session rest rows _ Hdone.
  destruct (extract_features_Ok other session) as (features & E & _).
  rewrite (extract_features_self self other), E, bind_Ok.
  eexists. split; [reflexivity|].
  apply Forall2_app; [exact Hdone|]. by constructor.
Qed.

(** C8.  The rows of a batch are the records of its sessions taken one by
    one, whatever loader computes them: the record of session [A] is the
    same when [A] is processed alone, before [B] or after [B], and neither
    a loader nor a feature engineer carries anything from one call to the
    next. *)
Theorem batch_is_per_session (self other : DataLoader)
    (engineer engineer' : FeatureEngineer) (A B : Session)
    (strokes : list Stroke) (canvas_size : CanvasSize) :
  let on batch := {| data_dir := data_dir self; sessions := batch |} in
  (exists rows,
     snd (create_dataset self) = Ok rows
     /\ Forall2 (fun session row => extract_features other session = Ok row)
                (sessions (fst (create_dataset self))) rows)
  /\ (exists rowA rowB,
        extract_features other A = Ok rowA
        /\ extract_features other B = Ok rowB
        /\ create_dataset (on [A]) = (on [A], Ok [rowA])
        /\ create_dataset (on [A; B]) = (on [A; B], Ok [rowA; rowB])
        /\ create_dataset (on [B; A]) = (on [B; A], Ok [rowB; rowA]))
  /\ compute_kinematic_features engineer strokes
     = compute_kinematic_features engineer' strokes
  /\ compute_spatial_features engineer strokes canvas_size
     = compute_spatial_features engineer' strokes canvas_size
  /\ compute_temporal_features engineer strokes
     = compute_temporal_features engineer' strokes
  /\ compute_pressure_features engineer strokes
     = compute_pressure_features engineer' strokes.
Proof.
  intros on. split; [|split; [|repeat split]].
  - unfold create_dataset. cbn [fst snd]. apply create_dataset_loop.
  - destruct (extract_features_Ok other A) as (rowA & EA & _).
    destruct (extract_features_Ok other B) as (rowB & EB & _).
    exists rowA, rowB. split; [exact EA|]. split; [exact EB|].
    unfold create_dataset, on. cbn [sessions bool_decide decide_rel].
    rewrite !bool_decide_eq_false_2 by discriminate.
    cbn [for_each sessions].
    repeat match goal with
           | |- context [extract_features ?l ?s] =>
               lazymatch l with
               | other => fail
               | _ => rewrite (extract_features_self l other s)
               end
           end.
    rewrite EA, EB, !bind_Ok. repeat split.
Qed.

(** C10.  For every session, even one with no [id], [testType],
    [createdAt] or [data], [extract_features] returns a record that holds
    the three metadata keys, with ['unknown'], ['unknown'] and [0] standing
    in for absent values; without a ['strokes'] entry the record holds
    nothing else. *)
Theorem metadata_fallbacks (self : DataLoader) (session : Session) :
  exists features,
    extract_features self session = Ok features
    /\ features !! "session_id" = Some (Str (default "unknown" (id session)))
    /\ features !! "test_type"
       = Some (Str (default "unknown" (testType session)))
    /\ features !! "created_at" = Some (Num (default 0 (createdAt session)))
    /\ (session_strokes session = None -> dom features = metadata_keys).
Proof.
  destruct (extract_features_Ok self session)
    as (features & E & Hmeta & _ & _ & Hbare & _).
  exists features. split; [exact E|].
  assert (Hin : forall k, k ∈ ["session_id"; "test_type"; "created_at"] ->
                          k ∈ metadata_keys).
  { intros k Hk. unfold metadata_keys. by apply elem_of_list_to_set. }
  rewrite !Hmeta by (apply Hin; set_solver).
  repeat split; try (vm_compute; reflexivity).
  intros Hnone. rewrite (Hbare (or_introl Hnone)). apply dom_metadata_record.
Qed.

(** The empty mapping yields exactly the three fallbacks. *)
Lemma metadata_fallbacks_witness :
  exists features,
    extract_features (DataLoader_init []) bare_session = Ok features
    /\ features !! "session_id" = Some (Str "unknown")
    /\ features !! "test_type" = Some (Str "unknown")
    /\ features !! "created_at" = Some (Num 0)
    /\ dom features = metadata_keys.
Proof.
  destruct (metadata_fallbacks (DataLoader_init []) bare_session)
    as (features & E & Hid & Htype & Hat & Hdom).
  exists features. repeat split; try assumption. by apply Hdom.
Defined.

(** ** Key sets of the records *)

Lemma empty_defaults_zero (self : FeatureEngineer) :
  map_Forall (fun _ v => v = 0) (_empty_kinematic_features self)
  /\ map_Forall (fun _ v => v = Finite 0) (_empty_spatial_features self)
  /\ map_Forall (fun _ v => v = 0) (_empty_temporal_features self)
  /\ map_Forall (fun _ v => v = 0) (_empty_pressure_features self).
Proof.
  unfold _empty_kinematic_features, _empty_spatial_features,
    _empty_temporal_features, _empty_pressure_features, dict.
  cbn [reverse rev_append list_to_map foldr uncurry].
  repeat split; repeat (apply map_Forall_insert_2; [reflexivity|]);
    apply map_Forall_empty.
Qed.

Lemma empty_defaults_dom (self : FeatureEngineer) :
  dom (_empty_kinematic_features self) = kinematic_keys
  /\ dom (_empty_spatial_features self) = spatial_keys
  /\ dom (_empty_temporal_features self) = temporal_keys
  /\ dom (_empty_pressure_features self) = pressure_keys.
Proof.
  unfold _empty_kinematic_features, _empty_spatial_features,
    _empty_temporal_features, _empty_pressure_features.
  by rewrite !dom_dict.
Qed.

Lemma count_keys_not_metadata : ~ count_keys ⊆ metadata_keys.
Proof.
  intros Hsub. specialize (Hsub "stroke_count").
  unfold count_keys, metadata_keys in Hsub.
  rewrite !elem_of_list_to_set, !list_elem_of_In in Hsub. cbn [In] in Hsub.
  destruct Hsub as [H|[H|[H|[]]]]; [by left | discriminate..].
Qed.

(** C1 (as the code has it).  [extract_features] always returns a record
    with [session_id], [test_type] and [created_at]; it holds
    [stroke_count] and [total_points] exactly when the session has a
    non-empty stroke list, and never more than the metadata keys and the
    keys of [_compute_stroke_features].  The four extractors of
    [FeatureEngineer] are separate calls: each returns exactly its
    documented key set, for every stroke list and every canvas size, and
    its all-zero default record when its input is insufficient: no stroke
    of two points (kinematic), no stroke, no canvas size or no point
    (spatial), no stroke (temporal), no point with a pressure
    (pressure). *)
Theorem record_key_sets (loader : DataLoader) (engineer : FeatureEngineer)
    (session : Session) (strokes : list Stroke) (canvas_size : CanvasSize) :
  (exists record,
     extract_features loader session = Ok record
     /\ metadata_keys ⊆ dom record
     /\ dom record ⊆ metadata_keys ∪ stroke_feature_keys
     /\ (count_keys ⊆ dom record
         <-> exists ss, session_strokes session = Some ss /\ ss <> []))
  /\ (exists kinematic,
        compute_kinematic_features engineer strokes = Ok kinematic
        /\ dom kinematic = kinematic_keys
        /\ (Forall (fun stroke => (point_count stroke < 2)%nat) strokes ->
            kinematic = _empty_kinematic_features engineer))
  /\ (exists spatial,
        compute_spatial_features engineer strokes canvas_size = Ok spatial
        /\ dom spatial = spatial_keys
        /\ (strokes = [] \/ canvas_size = ∅ \/ pooled_points strokes = [] ->
            spatial = _empty_spatial_features engineer))
  /\ (exists temporal,
        compute_temporal_features engineer strokes = Ok temporal
        /\ dom temporal = temporal_keys
        /\ (strokes = [] -> temporal = _empty_temporal_features engineer))
  /\ (exists pressure,
        compute_pressure_features engineer strokes = Ok pressure
        /\ dom pressure = pressure_keys
        /\ (collect_pressures strokes = [] ->
            pressure = _empty_pressure_features engineer))
  /\ map_Forall (fun _ v => v = 0) (_empty_kinematic_features engineer)
  /\ map_Forall (fun _ v => v = Finite 0) (_empty_spatial_features engineer)
  /\ map_Forall (fun _ v => v = 0) (_empty_temporal_features engineer)
  /\ map_Forall (fun _ v => v = 0) (_empty_pressure_features engineer).
Proof.
  split; [|split; [|split; [|split; [|split]]]].
  - destruct (extract_features_Ok loader session)
      as (record & E & _ & Hmeta & Hsub & Hbare & Hcount).
    exists record. split; [exact E|]. split; [exact Hmeta|].
    split; [exact Hsub|]. split.
    + intros Hin. destruct (session_strokes session) as [[|s ss]|] eqn:Hss.
      * rewrite (Hbare (or_intror eq_refl)), dom_metadata_record in Hin.
        destruct (count_keys_not_metadata Hin).
      * exists (s :: ss). by split.
      * rewrite (Hbare (or_introl eq_refl)), dom_metadata_record in Hin.
        destruct (count_keys_not_metadata Hin).
    + intros (ss & Hss & Hne). exact (Hcount ss Hss Hne).
  - destruct (compute_kinematic_features_Ok engineer strokes)
      as (kinematic & E & Hdom).
    exists kinematic. split; [exact E|]. split; [exact Hdom|].
    intros Hshort.
    rewrite (compute_kinematic_features_short engineer strokes Hshort) in E.
    by injection E.
  - destruct (compute_spatial_features_cases engineer strokes canvas_size)
      as [(_ & E)|(_ & f & ? & ? & ? & ? & ? & E & Hdom & _)].
    + eexists. split; [exact E|]. split; [apply empty_defaults_dom | done].
    + exists f. split; [exact E|]. split; [exact Hdom|].
      intros Hdeg.
      rewrite (compute_spatial_features_degenerate engineer _ _ Hdeg) in E.
      by injection E.
  - destruct (compute_temporal_features_Ok engineer strokes)
      as (f & ? & E & Hdom & _).
    exists f. split; [exact E|]. split; [exact Hdom|].
    intros ->. cbn in E. by injection E.
  - destruct (compute_pressure_features_total engineer strokes)
      as (f & E & Hdom).
    exists f. split; [exact E|]. split; [exact Hdom|].
    intros Hnone. unfold compute_pressure_features in E.
    rewrite bool_decide_eq_true_2 in E by exact Hnone. by injection E.
  - apply empty_defaults_zero.
Qed.

(** The reference scenario: its session record and, on a canvas of width
    zero, the seven keys of the spatial record. *)
Lemma record_key_sets_witness :
  (exists record,
     extract_features (DataLoader_init []) scenario_session = Ok record
     /\ metadata_keys ⊆ dom record /\ count_keys ⊆ dom record)
  /\ (exists spatial,
        compute_spatial_features FeatureEngineer_init [scenario_stroke]
          canvas_zero_width = Ok spatial
        /\ dom spatial = spatial_keys).
Proof.
  destruct (record_key_sets (DataLoader_init []) FeatureEngineer_init
              scenario_session [scenario_stroke] canvas_zero_width)
    as ((record & E & Hmeta & _ & Hcount) & _ & (spatial & Es & Hdom & _) & _).
  split; [|exists spatial; split; [exact Es | exact Hdom]].
  exists record. split; [exact E|]. split; [exact Hmeta|].
  apply Hcount. exists [scenario_stroke]. split; [reflexivity | discriminate].
Defined.

(** C1 (as stated) fails: a session with one stroke of a single bare point
    gets a record without [velocity_mean], a recognised key. *)
Lemma record_key_sets_counterexample :
  exists record,
    extract_features (DataLoader_init []) sparse_session = Ok record
    /\ "velocity_mean" ∈ recognized_keys
    /\ record !! "velocity_mean" = None
    /\ ~ recognized_keys ⊆ dom record.
Proof.
  destruct (extract_features_Ok (DataLoader_init []) sparse_session)
    as (record & E & _).
  exists record. split; [exact E|].
  assert (Hrec : "velocity_mean" ∈ recognized_keys).
  { unfold recognized_keys, kinematic_keys. set_solver. }
  assert (Hnone : record !! "velocity_mean" = None).
  { rewrite (entry_Ok _ _ "velocity_mean" E). vm_compute. reflexivity. }
  split; [exact Hrec|]. split; [exact Hnone|].
  intros Hsub. apply Hsub, elem_of_dom in Hrec as [v Hv]. congruence.
Qed.

(** C2 (as the code has it).  For a session whose stroke list is empty,
    [extract_features] returns exactly the three metadata entries, without
    [stroke_count] or [total_points]; and each of the four extractors of
    [FeatureEngineer], called on the empty stroke list, returns exactly its
    all-zero default mapping over its documented keys. *)
Theorem empty_strokes_defaults (loader : DataLoader)
    (engineer : FeatureEngineer) (session : Session)
    (canvas_size : CanvasSize) :
  session_strokes session = Some [] ->
  extract_features loader session = Ok (metadata_record session)
  /\ dom (metadata_record session) = metadata_keys
  /\ compute_kinematic_features engineer []
     = Ok (_empty_kinematic_features engineer)
  /\ compute_spatial_features engineer [] canvas_size
     = Ok (_empty_spatial_features engineer)
  /\ compute_temporal_features engineer []
     = Ok (_empty_temporal_features engineer)
  /\ compute_pressure_features engineer []
     = Ok (_empty_pressure_features engineer)
  /\ (dom (_empty_kinematic_features engineer) = kinematic_keys
      /\ dom (_empty_spatial_features engineer) = spatial_keys
      /\ dom (_empty_temporal_features engineer) = temporal_keys
      /\ dom (_empty_pressure_features engineer) = pressure_keys)
  /\ (map_Forall (fun _ v => v = 0) (_empty_kinematic_features engineer)
      /\ map_Forall (fun _ v => v = Finite 0)
                    (_empty_spatial_features engineer)
      /\ map_Forall (fun _ v => v = 0) (_empty_temporal_features engineer)
      /\ map_Forall (fun _ v => v = 0) (_empty_pressure_features engineer)).
Proof.
  intros Hss.
  split.
  { rewrite extract_features_unfold, Hss. reflexivity. }
  split; [apply dom_metadata_record|].
  do 4 (split; [reflexivity|]).
  split; [apply empty_defaults_dom | apply empty_defaults_zero].
Qed.

Lemma empty_strokes_defaults_witness :
  extract_features (DataLoader_init []) empty_session
  = Ok (dict [("session_id", Str "s-empty"); ("test_type", Str "clock");
              ("created_at", Num 1700)])
  /\ compute_spatial_features FeatureEngineer_init [] scenario_canvas
     = Ok (_empty_spatial_features FeatureEngineer_init).
Proof.
  destruct (empty_strokes_defaults (DataLoader_init []) FeatureEngineer_init
              empty_session scenario_canvas eq_refl)
    as (E & _ & _ & Es & _).
  split; [exact E | exact Es].
Defined.

(** C2 (as stated) fails: the record of a session without strokes has no
    [stroke_count], no [total_points] and none of the extractors' keys. *)
Lemma empty_strokes_defaults_counterexample :
  exists record,
    extract_features (DataLoader_init []) empty_session = Ok record
    /\ record !! "stroke_count" = None
    /\ record !! "total_points" = None
    /\ record !! "velocity_mean" = None
    /\ dom record = metadata_keys.
Proof.
  exists (metadata_record empty_session).
  split; [reflexivity|]. do 3 (split; [vm_compute; reflexivity|]).
  apply dom_metadata_record.
Qed.

(** ** The reference scenario *)

Lemma scenario_records (engineer : FeatureEngineer)
    (canvas_size : CanvasSize) :
  canvas_size <> ∅ ->
  exists kinematic spatial pressure,
    compute_kinematic_features engineer [scenario_stroke] = Ok kinematic
    /\ compute_spatial_features engineer [scenario_stroke] canvas_size
       = Ok spatial
    /\ compute_pressure_features engineer [scenario_stroke] = Ok pressure.
Proof.
  intros Hcanvas.
  destruct (compute_kinematic_features_Ok engineer [scenario_stroke])
    as (kinematic & Ek & _).
  destruct (compute_pressure_features_total engineer [scenario_stroke])
    as (pressure & Ep & _).
  destruct (compute_spatial_features_cases engineer [scenario_stroke]
              canvas_size)
    as [([Hs|[Hc|Hp]] & _)|(_ & spatial & ? & ? & ? & ? & ? & Es & _)];
    [discriminate | contradiction | discriminate |].
  exists kinematic, spatial, pressure. by repeat split.
Qed.

Lemma nonempty_canvas (canvas_size : CanvasSize) (k : string) (v : Q) :
  canvas_size !! k = Some v -> canvas_size <> ∅.
Proof. intros Hk ->. by rewrite lookup_empty in Hk. Qed.

(** A record returned by a call holds [q] under [k] when the call's entry
    [k] evaluates to a number equal to [q]. *)
Lemma feature_is_entry (r : result (gmap string Q))
    (features : gmap string Q) (k : string) (v q : Q) :
  r = Ok features -> entry r k = Some v -> v == q -> feature_is features k q.
Proof.
  intros E Hv Hq. exists v. split; [|exact Hq].
  by rewrite (entry_Ok r features k E).
Qed.

Lemma finite_is_entry (r : result (gmap string number))
    (features : gmap string number) (k : string) (v q : Q) :
  r = Ok features -> entry r k = Some (Finite v) -> v == q ->
  finite_is features k q.
Proof.
  intros E Hv Hq. exists v. split; [|exact Hq].
  by rewrite (entry_Ok r features k E).
Qed.

(** C3 (as the code has it).  On the reference scenario the extractors
    return [velocity_mean = 0.05], [velocity_std = 0],
    [path_length_total = 10], [bounding_box_area = 48] (the box spans
    6 by 8), [pressure_cv = 0], and [center_offset_total] is the float64
    nearest to the root of the squared distance 121525 from the mean point
    (3, 4) to the canvas centre (250, 250): [6132712761783235 / 2^44], that
    is 348.6043602710..., within [2^-45] of the root. *)
Theorem reference_scenario (engineer : FeatureEngineer) :
  exists kinematic spatial pressure offset,
    compute_kinematic_features engineer [scenario_stroke] = Ok kinematic
    /\ compute_spatial_features engineer [scenario_stroke] scenario_canvas
       = Ok spatial
    /\ compute_pressure_features engineer [scenario_stroke] = Ok pressure
    /\ feature_is kinematic "velocity_mean" 0.05
    /\ feature_is kinematic "velocity_std" 0
    /\ feature_is kinematic "path_length_total" 10
    /\ finite_is spatial "bounding_box_width" 6
    /\ finite_is spatial "bounding_box_height" 8
    /\ finite_is spatial "bounding_box_area" 48
    /\ feature_is pressure "pressure_cv" 0
    /\ np_sqrt ((3 - 250) ^ 2 + (4 - 250) ^ 2) = Ok offset
    /\ finite_is spatial "center_offset_total" offset
    /\ offset == 6132712761783235 # 17592186044416
    /\ (offset - (1 # 35184372088832)) ^ 2
       < (3 - 250) ^ 2 + (4 - 250) ^ 2
       < (offset + (1 # 35184372088832)) ^ 2.
Proof.
  destruct (scenario_records engineer scenario_canvas)
    as (kinematic & spatial & pressure & Ek & Es & Ep).
  { by apply (nonempty_canvas _ "width" 500). }
  exists kinematic, spatial, pressure.
  exists (6132712761783235 # 17592186044416).
  do 3 (split; [eassumption|]).
  do 3 (split; [eapply (feature_is_entry _ _ _ _ _ Ek);
                  vm_compute; reflexivity|]).
  do 3 (split; [eapply (finite_is_entry _ _ _ _ _ Es);
                  vm_compute; reflexivity|]).
  split; [eapply (feature_is_entry _ _ _ _ _ Ep); vm_compute; reflexivity|].
  split; [vm_compute; reflexivity|].
  split; [eapply (finite_is_entry _ _ _ _ _ Es); vm_compute; reflexivity|].
  split; [reflexivity|].
  split; vm_compute; reflexivity.
Qed.

(** C3 (as stated) fails: the bounding box of (0,0), (3,4), (6,8) has the
    area 48, not 12. *)
Lemma reference_scenario_counterexample :
  exists spatial,
    compute_spatial_features FeatureEngineer_init [scenario_stroke]
      scenario_canvas = Ok spatial
    /\ finite_is spatial "bounding_box_area" 48
    /\ ~ finite_is spatial "bounding_box_area" 12.
Proof.
  destruct (scenario_records FeatureEngineer_init scenario_canvas)
    as (_ & spatial & _ & _ & Es & _).
  { by apply (nonempty_canvas _ "width" 500). }
  exists spatial. split; [exact Es|]. split.
  - eapply (finite_is_entry _ _ _ _ _ Es); vm_compute; reflexivity.
  - intros (v & Hv & Heq). rewrite (entry_Ok _ _ _ Es) in Hv.
    vm_compute in Hv. injection Hv as <-. vm_compute in Heq. discriminate.
Qed.

(** C4 (as the code has it).  For strokes with at least one point and a
    non-empty canvas size, each absent canvas dimension counts as 1 in the
    denominator; when the resulting product is not zero the extractor
    returns a record whose [canvas_coverage] is the bounding-box area
    divided by that product. *)
Theorem canvas_coverage_quotient (self : FeatureEngineer)
    (strokes : list Stroke) (canvas_size : CanvasSize) :
  let width := get "width" 1 canvas_size in
  let height := get "height" 1 canvas_size in
  extract_all_points strokes <> [] ->
  canvas_size <> ∅ ->
  ~ width * height == 0 ->
  exists features (area : Q),
    compute_spatial_features self strokes canvas_size = Ok features
    /\ features !! "bounding_box_area" = Some (Finite area)
    /\ features !! "canvas_coverage"
       = Some (Finite (area / (width * height))).
Proof.
  intros width height Hpoints Hcanvas Hden.
  destruct (compute_spatial_features_cases self strokes canvas_size)
    as [([Hs|[Hc|Hp]] & _)
       |(_ & f & w & h & ? & ? & ? & E & _ & _ & _ & Ha & Hc & _)].
  - subst strokes. by destruct Hpoints.
  - contradiction.
  - contradiction.
  - exists f, (w * h). split; [exact E|]. split; [exact Ha|].
    by rewrite Hc, np_divide_finite.
Qed.

(** The reference scenario covers 48 / 250000 of its canvas. *)
Lemma canvas_coverage_quotient_witness :
  exists features (area : Q),
    compute_spatial_features FeatureEngineer_init [scenario_stroke]
      scenario_canvas = Ok features
    /\ features !! "bounding_box_area" = Some (Finite area)
    /\ features !! "canvas_coverage" = Some (Finite (area / (500 * 500))).
Proof.
  refine (canvas_coverage_quotient FeatureEngineer_init [scenario_stroke]
            scenario_canvas _ _ _).
  - vm_compute. discriminate.
  - by apply (nonempty_canvas _ "width" 500).
  - vm_compute. discriminate.
Defined.

(** C4 (as stated) fails: with the width absent and the height 500 the
    denominator is 1 * 500, not 1, so the coverage of the area 48 is
    48 / 500. *)
Lemma canvas_coverage_quotient_counterexample :
  exists features,
    compute_spatial_features FeatureEngineer_init [scenario_stroke]
      canvas_without_width = Ok features
    /\ canvas_without_width !! "width" = None
    /\ finite_is features "bounding_box_area" 48
    /\ finite_is features "canvas_coverage" (48 / 500)
    /\ ~ finite_is features "canvas_coverage" (48 / 1).
Proof.
  destruct (scenario_records FeatureEngineer_init canvas_without_width)
    as (_ & features & _ & _ & Es & _).
  { by apply (nonempty_canvas _ "height" 500). }
  exists features. split; [exact Es|].
  split; [vm_compute; reflexivity|].
  do 2 (split; [eapply (finite_is_entry _ _ _ _ _ Es);
                  vm_compute; reflexivity|]).
  intros (v & Hv & Heq). rewrite (entry_Ok _ _ _ Es) in Hv.
  vm_compute in Hv. injection Hv as <-. vm_compute in Heq. discriminate.
Qed.

(** * Further properties *)

(** ** The training pipeline *)

Section PipelineFacts.
Variable World : Type.
Variable executable : string.
Variable subprocess_run : list string -> World -> Z * World.

Let run := run_steps World executable subprocess_run.

(** [main] runs its planned steps one after the other. *)
Lemma pipeline_main_run_steps (args : PipelineArgs)
    (st : World * list Effect) :
  pipeline_main World executable subprocess_run args st
  = run (planned_steps args)
        (mkdir World (arg_output_dir args)
           (mkdir World "results" (mkdir World "data/processed" st))).
Proof.
  unfold pipeline_main, planned_steps, run.
  destruct args as [dd od [] [] [] [] []]; cbn -[run_script mkdir];
    repeat (destruct (run_script _ _ _ _ _ _) as [[] ?];
            cbn -[run_script mkdir]; try reflexivity);
    reflexivity.
Qed.

Lemma run_script_trace (script_path : string) (args : list string)
    (st : World * list Effect) :
  exists returncode world,
    subprocess_run (step_command executable (script_path, args)) (fst st)
    = (returncode, world)
    /\ run_script World executable subprocess_run script_path args st
       = ((returncode =? 0)%Z,
          (world,
           snd st ++ [Subprocess (step_command executable (script_path, args))
                                 returncode])).
Proof.
  unfold run_script, step_command. cbn [fst snd].
  destruct (subprocess_run _ (fst st)) as [returncode world].
  exists returncode, world. split; [reflexivity|].
  by destruct (returncode =? 0)%Z.
Qed.

(** What a run of steps leaves: the subprocesses it started are the
    commands of a prefix of the steps; the exit code is 0 when all steps
    ran and returned 0, and 1 when the last one started returned another
    code. *)
Lemma run_steps_trace (steps : list (string * list string)) :
  forall st : World * list Effect,
  exists runs : list (list string * Z),
    snd (snd (run steps st))
    = snd st ++ map (fun r => Subprocess (fst r) (snd r)) runs
    /\ map fst runs `prefix_of` map (step_command executable) steps
    /\ (fst (run steps st) = 0%Z
        /\ map fst runs = map (step_command executable) steps
        /\ Forall (fun r => snd r = 0%Z) runs
        \/ fst (run steps st) = 1%Z
           /\ exists pre cmd returncode,
                runs = pre ++ [(cmd, returncode)]
                /\ returncode <> 0%Z
                /\ Forall (fun r => snd r = 0%Z) pre).
Proof.
  induction steps as [|[script_path args] rest IH]; intros st.
  - exists []. cbn. rewrite app_nil_r. split; [reflexivity|].
    split; [reflexivity|]. left. by repeat split.
  - unfold run. cbn [run_steps]. fold run.
    destruct (run_script_trace script_path args st)
      as (returncode & world & _ & ->).
    destruct (Z.eqb_spec returncode 0) as [->|Hfail]; cbn [negb].
    + match goal with |- context [run rest ?s] =>
        destruct (IH s) as (runs & Htrace & Hprefix & Hcode) end.
      exists ((step_command executable (script_path, args), 0%Z) :: runs).
      split.
      { rewrite Htrace. cbn [snd map fst]. by rewrite <- app_assoc. }
      split.
      { cbn [map fst]. by apply prefix_cons. }
      destruct Hcode as [(Hz & Hall & Hok)|(Hone & pre & c & rc & -> & Hrc & Hpre)].
      * left. split; [exact Hz|]. split; [cbn [map fst]; by rewrite Hall|].
        by constructor.
      * right. split; [exact Hone|].
        exists ((step_command executable (script_path, args), 0%Z) :: pre),
               c, rc.
        split; [reflexivity|]. split; [exact Hrc|]. by constructor.
    + exists [(step_command executable (script_path, args), returncode)].
      cbn [fst snd map]. split; [reflexivity|].
      split; [apply prefix_cons, prefix_nil|].
      right. split; [reflexivity|].
      exists [], (step_command executable (script_path, args)), returncode.
      by repeat split.
Qed.
End PipelineFacts.

(** X1.  [main] creates its three directories first and then starts
    subprocesses only; it exits with 0 or 1, and with 0 exactly when every
    step that was not skipped was started, in the order 01 to 05 with the
    arguments [main] gives it, and returned the code 0. *)
Theorem pipeline_exit_code (World : Type) (executable : string)
    (subprocess_run : list string -> World -> Z * World)
    (args : PipelineArgs) (st : World * list Effect) :
  let out := pipeline_main World executable subprocess_run args st in
  exists runs : list (list string * Z),
    snd (snd out)
    = snd st
      ++ [Mkdir "data/processed"; Mkdir "results"; Mkdir (arg_output_dir args)]
      ++ map (fun r => Subprocess (fst r) (snd r)) runs
    /\ (fst out = 0%Z \/ fst out = 1%Z)
    /\ (fst out = 0%Z
        <-> map fst runs
            = map (step_command executable) (planned_steps args)
            /\ Forall (fun r => snd r = 0%Z) runs).
Proof.
  intros out. subst out. rewrite pipeline_main_run_steps.
  match goal with |- context [run_steps _ _ _ _ ?s] =>
    destruct (run_steps_trace World executable subprocess_run
                (planned_steps args) s) as (runs & Htrace & _ & Hcode) end.
  exists runs. split.
  { rewrite Htrace. unfold mkdir. cbn [fst snd]. by rewrite <- !app_assoc. }
  destruct Hcode as [(Hz & Hall & Hok)|(Hone & pre & c & rc & -> & Hrc & Hpre)].
  - split; [by left|]. by split.
  - split; [by right|]. rewrite Hone. split; [discriminate|].
    intros [_ Hok]. apply Forall_app in Hok as [_ Hlast].
    inversion Hlast as [|? ? Hzero _]. contradiction.
Qed.

(** X2.  The commands [main] starts are a prefix of the commands of the
    steps that were not skipped, so a skipped step is never started and
    nothing is started after a failure; [main] exits with 1 exactly when the
    last command it started returned a code other than 0, every command
    before it having returned 0. *)
Theorem pipeline_stops_at_first_failure (World : Type) (executable : string)
    (subprocess_run : list string -> World -> Z * World)
    (args : PipelineArgs) (st : World * list Effect) :
  let out := pipeline_main World executable subprocess_run args st in
  exists runs : list (list string * Z),
    subprocess_runs (snd (snd out)) = subprocess_runs (snd st) ++ runs
    /\ map fst runs
       `prefix_of` map (step_command executable) (planned_steps args)
    /\ (fst out = 1%Z
        <-> exists pre cmd returncode,
              runs = pre ++ [(cmd, returncode)]
              /\ returncode <> 0%Z
              /\ Forall (fun r => snd r = 0%Z) pre).
Proof.
  intros out. subst out. rewrite pipeline_main_run_steps.
  match goal with |- context [run_steps _ _ _ _ ?s] =>
    destruct (run_steps_trace World executable subprocess_run
                (planned_steps args) s) as (runs & Htrace & Hprefix & Hcode) end.
  exists runs. split.
  { rewrite Htrace. unfold mkdir, subprocess_runs. cbn [fst snd].
    rewrite !flat_map_app. cbn [flat_map]. rewrite !app_nil_r. f_equal.
    clear. induction runs as [|[c rc] runs IH]; [reflexivity|].
    cbn [map flat_map fst snd app]. by rewrite IH. }
  split; [exact Hprefix|].
  destruct Hcode as [(Hz & Hall & Hok)|(Hone & Hlast)].
  - rewrite Hz. split; [discriminate|].
    intros (pre & c & rc & -> & Hrc & _).
    apply Forall_app in Hok as [_ Hlast].
    inversion Hlast as [|? ? Hzero _]. contradiction.
  - by split.
Qed.

(** X3.  Strokes with fewer than two points (or without a [points] entry)
    contribute no kinematic sample: when every stroke of a session is such
    a stroke, the kinematic extractor returns the all-zero default record,
    as it does for a session without strokes. *)
Theorem kinematic_short_strokes (self : FeatureEngineer)
    (strokes : list Stroke) :
  Forall (fun stroke => (point_count stroke < 2)%nat) strokes ->
  compute_kinematic_features self strokes
  = Ok (_empty_kinematic_features self).
Proof. apply compute_kinematic_features_short. Qed.

(** Three strokes: a single point, no points, no [points] entry. *)
Lemma kinematic_short_strokes_witness :
  compute_kinematic_features FeatureEngineer_init
    [ {| points := Some [point 7 9 10 0.4]; startTime := Some 10;
         endTime := Some 11 |};
      {| points := Some []; startTime := None; endTime := None |};
      {| points := None; startTime := None; endTime := None |} ]
  = Ok (_empty_kinematic_features FeatureEngineer_init).
Proof.
  apply kinematic_short_strokes.
  repeat constructor.
Defined.

(** X4.  Acceleration needs three points in one stroke and jerk needs
    four: samples are never formed across strokes.  When no stroke has more
    than three points, [jerk_mean] and [jerk_std] are 0; when none has more
    than two, [acceleration_mean] and [acceleration_std] are 0 as well,
    however many strokes the session has. *)
Theorem kinematic_derivative_thresholds (self : FeatureEngineer)
    (strokes : list Stroke) :
  Forall (fun stroke => (point_count stroke <= 3)%nat) strokes ->
  exists features,
    compute_kinematic_features self strokes = Ok features
    /\ features !! "jerk_mean" = Some 0
    /\ features !! "jerk_std" = Some 0
    /\ (Forall (fun stroke => (point_count stroke <= 2)%nat) strokes ->
        features !! "acceleration_mean" = Some 0
        /\ features !! "acceleration_std" = Some 0).
Proof.
  intros Hthree.
  destruct (kinematic_record self strokes)
    as (acc & vm & vs & vx & am & as' & jm & js & pm & Hacc
        & _ & _ & _ & Eam & Eas & Ejm & Ejs & _ & ->).
  destruct (kinematic_lists_spec strokes)
    as (acc' & Hacc' & _ & _ & Ha & Hj & _).
  rewrite Hacc in Hacc'. injection Hacc' as <-.
  rewrite sum_list_with_zero in Hj
    by (eapply Forall_impl; [exact Hthree | cbn; lia]).
  apply length_zero_nil in Hj. rewrite Hj in Ejm, Ejs.
  injection Ejm as <-. injection Ejs as <-.
  eexists. split; [reflexivity|].
  split; [vm_compute; reflexivity|]. split; [vm_compute; reflexivity|].
  intros Htwo.
  rewrite sum_list_with_zero in Ha
    by (eapply Forall_impl; [exact Htwo | cbn; lia]).
  apply length_zero_nil in Ha. rewrite Ha in Eam, Eas.
  injection Eam as <-. injection Eas as <-.
  split; vm_compute; reflexivity.
Qed.

(** The three points of the reference scenario give one acceleration
    sample and no jerk sample. *)
Lemma kinematic_derivative_thresholds_witness :
  exists features,
    compute_kinematic_features FeatureEngineer_init [scenario_stroke]
    = Ok features
    /\ features !! "jerk_mean" = Some 0
    /\ features !! "jerk_std" = Some 0.
Proof.
  destruct (kinematic_derivative_thresholds FeatureEngineer_init
              [scenario_stroke])
    as (features & E & Hjm & Hjs & _).
  - repeat constructor.
  - exists features. by repeat split.
Defined.

(** ** The spatial extractor beyond its key set *)

(** X7.  Without strokes, without a canvas size, or without any point, the
    spatial extractor returns the all-zero default record before it looks
    at the canvas dimensions: a canvas of zero area is harmless there. *)
Theorem spatial_degenerate_defaults (self : FeatureEngineer)
    (strokes : list Stroke) (canvas_size : CanvasSize) :
  strokes = [] \/ canvas_size = ∅ \/ pooled_points strokes = [] ->
  compute_spatial_features self strokes canvas_size
  = Ok (_empty_spatial_features self).
Proof. apply compute_spatial_features_degenerate. Qed.

(** Strokes that hold no point, on a canvas of width zero. *)
Lemma spatial_degenerate_defaults_witness :
  compute_spatial_features FeatureEngineer_init
    [stroke_A; {| points := Some []; startTime := None; endTime := None |}]
    canvas_zero_width
  = Ok (_empty_spatial_features FeatureEngineer_init).
Proof.
  apply spatial_degenerate_defaults. right; right. reflexivity.
Defined.

(** X8.  With at least one point and a non-empty canvas size whose width
    times height (an absent dimension counting as 1) is zero, the spatial
    extractor raises nothing: it returns its seven keys, [canvas_coverage]
    being [nan] when the bounding box has no area and an infinity
    otherwise, and the six other entries finite. *)
Theorem spatial_zero_area_canvas (self : FeatureEngineer)
    (strokes : list Stroke) (canvas_size : CanvasSize) :
  extract_all_points strokes <> [] ->
  canvas_size <> ∅ ->
  get "width" 1 canvas_size * get "height" 1 canvas_size == 0 ->
  exists features (area : Q) coverage,
    compute_spatial_features self strokes canvas_size = Ok features
    /\ dom features = spatial_keys
    /\ features !! "bounding_box_area" = Some (Finite area)
    /\ features !! "canvas_coverage" = Some coverage
    /\ (coverage = PosInf \/ coverage = NegInf \/ coverage = NaN)
    /\ (area == 0 -> coverage = NaN)
    /\ (0 < area -> coverage = PosInf)
    /\ (forall k, k ∈ spatial_keys -> k <> "canvas_coverage" ->
        exists q, features !! k = Some (Finite q)).
Proof.
  intros Hp Hc Hz.
  destruct (compute_spatial_features_cases self strokes canvas_size)
    as [([->|[?|?]] & _)
       |(_ & f & w & h & ox & oy & ot
         & E & Hdom & Hw & Hh & Ha & Hcov & Hox & Hoy & Hot)];
    [by destruct Hp | done | done |].
  exists f, (w * h); eexists.
  split; [exact E|]. split; [exact Hdom|]. split; [exact Ha|].
  split; [exact Hcov|].
  unfold np_divide. rewrite (Qeq_eq_bool _ _ Hz).
  split; [|split; [|split]].
  - destruct (Qeq_bool (w * h) 0); [tauto|]. destruct (Qltb 0 (w * h)); tauto.
  - intros H0. by rewrite (Qeq_eq_bool _ _ H0).
  - intros Hpos. destruct (Qeq_bool (w * h) 0) eqn:E0.
    + apply Qeq_bool_eq in E0. lra.
    + apply Qltb_lt in Hpos. by rewrite Hpos.
  - intros k Hk Hne. unfold spatial_keys in Hk.
    rewrite elem_of_list_to_set, list_elem_of_In in Hk. cbn [In] in Hk.
    destruct Hk as [<-|[<-|[<-|[<-|[<-|[<-|[<-|[]]]]]]]]; eauto.
    by destruct Hne.
Qed.

(** The reference stroke on a canvas of width zero: the coverage is
    infinite. *)
Lemma spatial_zero_area_canvas_witness :
  exists features,
    compute_spatial_features FeatureEngineer_init [scenario_stroke]
      canvas_zero_width = Ok features
    /\ features !! "bounding_box_area" = Some (Finite 48)
    /\ features !! "canvas_coverage" = Some PosInf.
Proof.
  destruct (spatial_zero_area_canvas FeatureEngineer_init [scenario_stroke]
              canvas_zero_width)
    as (features & area & coverage & E & _ & Ha & Hc & _ & _ & Hpos & _).
  - vm_compute. discriminate.
  - by apply (nonempty_canvas _ "height" 500).
  - vm_compute. reflexivity.
  - exists features. split; [exact E|].
    rewrite (entry_Ok _ _ _ E) in Ha. vm_compute in Ha.
    injection Ha as <-.
    split; [rewrite (entry_Ok _ _ _ E); vm_compute; reflexivity|].
    rewrite Hc. f_equal. apply Hpos. reflexivity.
Defined.

(** ** Pooling over strokes *)

Lemma collect_pressures_pooled (strokes : list Stroke) :
  collect_pressures strokes
  = flat_map (fun point : Point =>
                match point !! "pressure" with
                | Some pressure => [pressure]
                | None => []
                end)
             (pooled_points strokes).
Proof.
  unfold collect_pressures, pooled_points.
  induction strokes as [|s l IH]; [reflexivity|].
  cbn [flat_map]. by rewrite flat_map_app, IH.
Qed.

(** X10.  The spatial and the pressure extractor pool the points of all
    strokes: two stroke lists with the same points in the same order give
    the same records, however the points are divided into strokes (and
    whatever the strokes' start and end times). *)
Theorem stroke_boundaries_irrelevant (self : FeatureEngineer)
    (strokes strokes' : list Stroke) (canvas_size : CanvasSize) :
  pooled_points strokes = pooled_points strokes' ->
  compute_spatial_features self strokes canvas_size
  = compute_spatial_features self strokes' canvas_size
  /\ compute_pressure_features self strokes
     = compute_pressure_features self strokes'.
Proof.
  intros Hsame. split.
  - destruct (decide (pooled_points strokes = [])) as [Hnil|Hne].
    + rewrite !compute_spatial_features_degenerate; [reflexivity | |];
        right; right; congruence.
    + assert (Hs : strokes <> []) by (intros ->; by destruct Hne).
      assert (Hs' : strokes' <> []).
      { intros ->. rewrite Hsame in Hne. by destruct Hne. }
      unfold compute_spatial_features.
      rewrite (bool_decide_eq_false_2 _ Hs), (bool_decide_eq_false_2 _ Hs').
      by rewrite !extract_all_points_pooled, Hsame.
  - unfold compute_pressure_features.
    by rewrite !collect_pressures_pooled, Hsame.
Qed.

(** The reference stroke cut after its second point. *)
Lemma stroke_boundaries_irrelevant_witness :
  compute_spatial_features FeatureEngineer_init
    [ {| points := Some [point 0 0 0 0.5; point 3 4 100 0.5];
         startTime := Some 0; endTime := Some 100 |};
      {| points := Some [point 6 8 200 0.5];
         startTime := None; endTime := None |} ]
    scenario_canvas
  = compute_spatial_features FeatureEngineer_init [scenario_stroke]
      scenario_canvas.
Proof.
  refine (proj1 (stroke_boundaries_irrelevant FeatureEngineer_init _ _
                   scenario_canvas _)).
  reflexivity.
Defined.

(** ** The pressure extractor beyond its guard *)

(** X11.  With at least one pressure-bearing point the pressure extractor
    returns as [pressure_min] and [pressure_max] two pressures that occur
    in the session, the first at most the second; [pressure_range] is
    their difference and at least 0, and [pressure_std] and [pressure_cv]
    are at least 0. *)
Theorem pressure_ranges (self : FeatureEngineer) (strokes : list Stroke) :
  collect_pressures strokes <> [] ->
  exists features lo hi,
    compute_pressure_features self strokes = Ok features
    /\ features !! "pressure_min" = Some lo
    /\ features !! "pressure_max" = Some hi
    /\ features !! "pressure_range" = Some (hi - lo)
    /\ lo <= hi
    /\ 0 <= hi - lo
    /\ In lo (collect_pressures strokes)
    /\ In hi (collect_pressures strokes)
    /\ Forall (fun pressure => lo <= pressure <= hi)
              (collect_pressures strokes)
    /\ holds features "pressure_std" (fun v => 0 <= v)
    /\ holds features "pressure_cv" (fun v => 0 <= v).
Proof.
  intros Hne.
  destruct (compute_pressure_features_Ok self strokes Hne)
    as (m & s & lo & hi & Em & Es & Elo & Ehi & ->).
  destruct (np_min_spec _ _ Elo) as [Hlo_in Hlo].
  destruct (np_max_spec _ _ Ehi) as [Hhi_in Hhi].
  pose proof (np_std_nonneg _ _ Es) as Hs.
  pose proof (np_min_le_max _ _ _ Elo Ehi) as Hle.
  destruct (pressure_entries m s lo hi (hi - lo)
              (if Qltb 0 m then s / m else 0))
    as (_ & Hstd & Hmin & Hmax & Hrange & Hcv).
  eexists; exists lo, hi. split; [reflexivity|].
  split; [exact Hmin|]. split; [exact Hmax|]. split; [exact Hrange|].
  split; [exact Hle|]. split; [lra|].
  split; [exact Hlo_in|]. split; [exact Hhi_in|].
  split.
  { rewrite Forall_forall in Hlo, Hhi. apply Forall_forall.
    intros x Hx. split; [by apply Hlo | by apply Hhi]. }
  split; [exists s; split; [exact Hstd | exact Hs]|].
  exists (if Qltb 0 m then s / m else 0).
  split; [exact Hcv|].
  destruct (Qltb 0 m) eqn:Hm; [|lra].
  apply Qltb_lt in Hm. apply Qle_shift_div_l; lra.
Qed.

(** A stroke at the pressure 0.4 and a stroke at the pressure 0.6. *)
Lemma pressure_ranges_witness :
  exists features lo hi,
    compute_pressure_features FeatureEngineer_init
      [constant_pressure_stroke 0.4; constant_pressure_stroke 0.6]
    = Ok features
    /\ features !! "pressure_min" = Some lo
    /\ features !! "pressure_max" = Some hi
    /\ features !! "pressure_range" = Some (hi - lo)
    /\ lo <= hi.
Proof.
  destruct (pressure_ranges FeatureEngineer_init
              [constant_pressure_stroke 0.4; constant_pressure_stroke 0.6])
    as (features & lo & hi & E & Hlo & Hhi & Hrange & Hle & _).
  - vm_compute. discriminate.
  - exists features, lo, hi.
    split; [exact E|]. split; [exact Hlo|]. split; [exact Hhi|].
    split; [exact Hrange | exact Hle].
Defined.

(** X12.  A point without a [pressure] entry is skipped, not counted as
    pressure 0: strokes whose points all lack the entry, added before or
    after a stroke list, leave the pressure record as it is. *)
Theorem pressureless_points_skipped (self : FeatureEngineer)
    (strokes before after : list Stroke) :
  Forall (fun point : Point => point !! "pressure" = None)
         (pooled_points (before ++ after)) ->
  compute_pressure_features self (before ++ strokes ++ after)
  = compute_pressure_features self strokes.
Proof.
  intros Hnone.
  assert (Hskip : forall l,
            Forall (fun point : Point => point !! "pressure" = None)
                   (pooled_points l) ->
            collect_pressures l = []).
  { intros l Hl. rewrite collect_pressures_pooled.
    induction Hl as [|p ps Hp _ IH]; [reflexivity|].
    cbn [flat_map]. by rewrite Hp, IH. }
  unfold pooled_points in Hnone. rewrite flat_map_app in Hnone.
  apply Forall_app in Hnone as [Hb Ha].
  unfold compute_pressure_features.
  assert (E : collect_pressures (before ++ strokes ++ after)
              = collect_pressures strokes).
  { unfold collect_pressures. rewrite !flat_map_app.
    fold (collect_pressures before) (collect_pressures strokes)
         (collect_pressures after).
    by rewrite (Hskip before Hb), (Hskip after Ha), app_nil_r. }
  by rewrite E.
Qed.

Lemma pressureless_points_skipped_witness :
  compute_pressure_features FeatureEngineer_init
    ([ {| points := Some [dict [("x", 1); ("y", 2)]];
          startTime := None; endTime := None |} ]
     ++ [scenario_stroke] ++ [stroke_A])
  = compute_pressure_features FeatureEngineer_init [scenario_stroke].
Proof.
  apply pressureless_points_skipped.
  repeat constructor.
Defined.

(** ** The temporal extractor beyond the clamp *)

(** The duration a stroke contributes: none unless it has both times. *)
Lemma stroke_durations_flat_map (strokes : list Stroke) :
  stroke_durations strokes
  = flat_map (fun stroke =>
                match startTime stroke, endTime stroke with
                | Some start, Some stop => [stop - start]
                | _, _ => []
                end) strokes.
Proof.
  unfold stroke_durations.
  assert (H : forall acc,
            fold_left (fun ds stroke => duration_body stroke ds) strokes acc
            = acc ++ flat_map (fun stroke =>
                                 match startTime stroke, endTime stroke with
                                 | Some start, Some stop => [stop - start]
                                 | _, _ => []
                                 end) strokes).
  { induction strokes as [|s l IH]; intros acc; cbn [fold_left flat_map].
    - by rewrite app_nil_r.
    - rewrite IH. unfold duration_body.
      destruct (startTime s), (endTime s); by rewrite <- ?app_assoc, ?app_nil_r. }
  exact (H []).
Qed.

(** The gap a consecutive pair contributes: none unless the earlier stroke
    has an end and the later one a start. *)
Lemma consecutive_pauses_snoc (l : list Stroke) (prev curr : Stroke) :
  consecutive_pauses (l ++ [prev; curr])
  = consecutive_pauses (l ++ [prev])
    ++ match endTime prev, startTime curr with
       | Some stop, Some start => [py_max 0 (start - stop)]
       | _, _ => []
       end.
Proof.
  induction l as [|a l IH].
  - cbn. destruct (endTime prev), (startTime curr); reflexivity.
  - destruct l as [|b l].
    + cbn [app] in *. cbn [consecutive_pauses] in *.
      destruct (endTime a), (startTime prev); by rewrite IH.
    + cbn [app] in *. cbn [consecutive_pauses].
      cbn [consecutive_pauses] in IH.
      destruct (endTime a), (startTime b); cbn [app]; by rewrite IH.
Qed.

Lemma pause_loop_consecutive (strokes : list Stroke) :
  for_each (pause_body strokes) (range 1 (length strokes)) []
  = Ok (consecutive_pauses strokes).
Proof.
  destruct (for_each_inv (pause_body strokes) (range 1 (length strokes))
              (fun done pauses =>
                 pauses = consecutive_pauses (take (S (length done)) strokes))
              [])
    as (pauses & E & Hinv).
  - destruct strokes as [|s [|s' l]]; reflexivity.
  - intros done i rest pauses Hsplit ->.
    apply range_split in Hsplit as [Hi Hlt].
    destruct (index_lt strokes (i - 1)) as (prev & Hprev & Eprev); [lia|].
    destruct (index_lt strokes i) as (curr & Hcurr & Ecurr); [lia|].
    unfold pause_body. rewrite Eprev, bind_Ok, Ecurr, bind_Ok.
    replace (i - 1)%nat with (length done) in Hprev by lia.
    replace i with (S (length done)) in Hcurr by lia.
    rewrite length_app. cbn [length].
    replace (S (length done + 1)) with (S (S (length done))) by lia.
    rewrite (take_S_r strokes (S (length done)) curr Hcurr).
    rewrite (take_S_r strokes (length done) prev Hprev).
    rewrite <- app_assoc. cbn [app].
    rewrite consecutive_pauses_snoc.
    destruct (endTime prev), (startTime curr);
      (eexists; split; [reflexivity|]); by rewrite ?app_nil_r.
  - rewrite E, Hinv, length_range. f_equal. f_equal.
    apply take_ge. lia.
Qed.

(** The record of the temporal extractor in terms of the durations and the
    pauses, for every stroke list. *)
Lemma temporal_record (self : FeatureEngineer) (strokes : list Stroke) :
  let durations := stroke_durations strokes in
  let pauses := consecutive_pauses strokes in
  exists duration_mean duration_std duration_max
         pause_mean pause_std pause_max,
    if_nonempty durations np_mean = Ok duration_mean
    /\ if_nonempty durations np_std = Ok duration_std
    /\ if_nonempty durations np_max = Ok duration_max
    /\ if_nonempty pauses np_mean = Ok pause_mean
    /\ if_nonempty pauses np_std = Ok pause_std
    /\ if_nonempty pauses np_max = Ok pause_max
    /\ compute_temporal_features self strokes
       = Ok (dict [
           ("stroke_duration_mean", duration_mean);
           ("stroke_duration_std", duration_std);
           ("stroke_duration_max", duration_max);
           ("inter_stroke_pause_mean", pause_mean);
           ("inter_stroke_pause_std", pause_std);
           ("inter_stroke_pause_max", pause_max);
           ("total_pause_time", py_sum pauses)]).
Proof.
  intros durations pauses.
  destruct (decide (strokes = [])) as [->|Hne].
  - exists 0, 0, 0, 0, 0, 0. by repeat split.
  - unfold compute_temporal_features.
    rewrite (bool_decide_eq_false_2 _ Hne), pause_loop_consecutive, bind_Ok.
    fold (stroke_durations strokes). fold durations pauses.
    destruct (if_nonempty_mean durations) as (dm & Edm).
    destruct (if_nonempty_std durations) as (ds & Eds).
    destruct (if_nonempty_max durations) as (dx & Edx).
    destruct (if_nonempty_mean pauses) as (pm & Epm).
    destruct (if_nonempty_std pauses) as (ps & Eps).
    destruct (if_nonempty_max pauses) as (px & Epx).
    exists dm, ds, dx, pm, ps, px.
    rewrite Edm, Eds, Edx, Epm, Eps, Epx, !bind_Ok, update_empty.
    by repeat split.
Qed.

(** X13.  A session of fewer than two strokes has no inter-stroke pause:
    the temporal extractor returns 0 for [inter_stroke_pause_mean],
    [inter_stroke_pause_std], [inter_stroke_pause_max] and
    [total_pause_time]. *)
Theorem single_stroke_no_pause (self : FeatureEngineer)
    (strokes : list Stroke) :
  (length strokes <= 1)%nat ->
  exists features,
    compute_temporal_features self strokes = Ok features
    /\ features !! "inter_stroke_pause_mean" = Some 0
    /\ features !! "inter_stroke_pause_std" = Some 0
    /\ features !! "inter_stroke_pause_max" = Some 0
    /\ features !! "total_pause_time" = Some 0.
Proof.
  intros Hlen.
  destruct (temporal_record self strokes)
    as (dm & ds & dx & pm & ps & px & _ & _ & _ & Epm & Eps & Epx & ->).
  assert (Hp : consecutive_pauses strokes = []).
  { destruct strokes as [|s [|s' l]]; [reflexivity | reflexivity |].
    cbn [length] in Hlen. lia. }
  rewrite Hp in *. injection Epm as <-. injection Eps as <-.
  injection Epx as <-.
  eexists. split; [reflexivity|]. repeat split; vm_compute; reflexivity.
Qed.

Lemma single_stroke_no_pause_witness :
  exists features,
    compute_temporal_features FeatureEngineer_init [scenario_stroke]
    = Ok features
    /\ features !! "inter_stroke_pause_max" = Some 0
    /\ features !! "total_pause_time" = Some 0.
Proof.
  destruct (single_stroke_no_pause FeatureEngineer_init [scenario_stroke])
    as (features & E & _ & _ & Hmax & Htotal).
  - cbn. lia.
  - exists features. by repeat split.
Defined.

Lemma stroke_durations_filter (strokes : list Stroke) :
  stroke_durations (filter (fun stroke => has_times stroke = true) strokes)
  = stroke_durations strokes.
Proof.
  rewrite !stroke_durations_flat_map.
  induction strokes as [|s l IH]; [reflexivity|].
  rewrite filter_cons. destruct (decide (has_times s = true)) as [Ht|Ht].
  - cbn [flat_map]. by rewrite IH.
  - cbn [flat_map]. rewrite IH. unfold has_times in Ht.
    destruct (startTime s), (endTime s); try reflexivity. by destruct Ht.
Qed.

(** X14.  A stroke that lacks [startTime] or [endTime] is left out of the
    duration statistics rather than counted as duration 0: the three
    duration features are those of the stroke list with such strokes
    removed, and all three are 0 when no stroke has both times. *)
Theorem untimed_strokes_excluded (self : FeatureEngineer)
    (strokes : list Stroke) :
  let timed := filter (fun stroke => has_times stroke = true) strokes in
  exists features features',
    compute_temporal_features self strokes = Ok features
    /\ compute_temporal_features self timed = Ok features'
    /\ features !! "stroke_duration_mean" = features' !! "stroke_duration_mean"
    /\ features !! "stroke_duration_std" = features' !! "stroke_duration_std"
    /\ features !! "stroke_duration_max" = features' !! "stroke_duration_max"
    /\ (timed = [] ->
        features !! "stroke_duration_mean" = Some 0
        /\ features !! "stroke_duration_std" = Some 0
        /\ features !! "stroke_duration_max" = Some 0).
Proof.
  intros timed.
  destruct (temporal_record self strokes)
    as (dm & ds & dx & pm & ps & px & Edm & Eds & Edx & _ & _ & _ & ->).
  destruct (temporal_record self timed)
    as (dm' & ds' & dx' & pm' & ps' & px' & Edm' & Eds' & Edx' & _ & _ & _ & ->).
  unfold timed in Edm', Eds', Edx'.
  rewrite stroke_durations_filter in Edm', Eds', Edx'.
  rewrite Edm in Edm'. rewrite Eds in Eds'. rewrite Edx in Edx'.
  injection Edm' as <-. injection Eds' as <-. injection Edx' as <-.
  eexists; eexists. split; [reflexivity|]. split; [reflexivity|].
  do 3 (split; [vm_compute; reflexivity|]).
  intros Hnone.
  rewrite <- stroke_durations_filter in Edm, Eds, Edx.
  fold timed in Edm, Eds, Edx. rewrite Hnone in Edm, Eds, Edx.
  injection Edm as <-. injection Eds as <-. injection Edx as <-.
  repeat split; vm_compute; reflexivity.
Qed.

(** X15.  The pause statistics are never negative and the means never
    exceed the maxima: for every stroke list
    [0 <= inter_stroke_pause_mean <= inter_stroke_pause_max],
    [stroke_duration_mean <= stroke_duration_max], and the two standard
    deviations are at least 0. *)
Theorem temporal_ranges (self : FeatureEngineer) (strokes : list Stroke) :
  exists features pause_mean pause_max duration_mean duration_max,
    compute_temporal_features self strokes = Ok features
    /\ features !! "inter_stroke_pause_mean" = Some pause_mean
    /\ features !! "inter_stroke_pause_max" = Some pause_max
    /\ features !! "stroke_duration_mean" = Some duration_mean
    /\ features !! "stroke_duration_max" = Some duration_max
    /\ 0 <= pause_mean <= pause_max
    /\ duration_mean <= duration_max
    /\ holds features "inter_stroke_pause_std" (fun v => 0 <= v)
    /\ holds features "stroke_duration_std" (fun v => 0 <= v).
Proof.
  destruct (temporal_record self strokes)
    as (dm & ds & dx & pm & ps & px & Edm & Eds & Edx & Epm & Eps & Epx & ->).
  destruct (pause_loop_Ok strokes) as (pauses & Eloop & Hpos).
  rewrite pause_loop_consecutive in Eloop. injection Eloop as <-.
  assert (Hmean_max : forall l m x,
            if_nonempty l np_mean = Ok m -> if_nonempty l np_max = Ok x ->
            m <= x).
  { intros l m x Hm Hx. destruct l as [|a l].
    - injection Hm as <-. injection Hx as <-. lra.
    - cbn [if_nonempty] in Hm, Hx. destruct (np_max_spec _ _ Hx) as [_ Hall].
      destruct (np_min_Ok (a :: l)) as (lo & Hlo); [discriminate|].
      destruct (np_min_spec _ _ Hlo) as [_ Hall'].
      refine (proj2 (np_mean_bounds lo x m (a :: l) _ Hm)).
      rewrite Forall_forall in Hall, Hall'. apply Forall_forall.
      intros y Hy. split; [by apply Hall' | by apply Hall]. }
  eexists; exists pm, px, dm, dx. split; [reflexivity|].
  do 4 (split; [vm_compute; reflexivity|]).
  split.
  { split; [by apply (if_nonempty_mean_nonneg (consecutive_pauses strokes))|].
    by apply (Hmean_max (consecutive_pauses strokes)). }
  split; [by apply (Hmean_max (stroke_durations strokes))|].
  split.
  - exists ps. split; [vm_compute; reflexivity|].
    by apply (if_nonempty_std_nonneg (consecutive_pauses strokes)).
  - exists ds. split; [vm_compute; reflexivity|].
    by apply (if_nonempty_std_nonneg (stroke_durations strokes)).
Qed.

(** ** The stroke features of [DataLoader] *)

(** The record [_compute_stroke_features] builds for a non-empty stroke
    list. *)
Lemma stroke_features_record (self : DataLoader) (strokes : list Stroke) :
  let durations := stroke_durations strokes in
  let pressures := collect_pressures strokes in
  let base : gmap string value :=
    <["total_points" :=
        Num (py_sum (map (fun stroke => len (default [] (points stroke)))
                         strokes))]>
      (<["stroke_count" := Num (len strokes)]> ∅) in
  strokes <> [] ->
  exists dmean dstd pmean pstd plo phi,
    (durations <> [] ->
     np_mean durations = Ok dmean /\ np_std durations = Ok dstd)
    /\ (pressures <> [] ->
        np_mean pressures = Ok pmean /\ np_std pressures = Ok pstd
        /\ np_min pressures = Ok plo /\ np_max pressures = Ok phi)
    /\ _compute_stroke_features self strokes
       = Ok (let timed : gmap string value :=
               if bool_decide (durations = []) then base
               else <["total_drawing_time" := Num (py_sum durations)]>
                      (<["stroke_duration_std" := Num dstd]>
                         (<["stroke_duration_mean" := Num dmean]> base)) in
             if bool_decide (pressures = []) then timed
             else <["pressure_max" := Num phi]>
                    (<["pressure_min" := Num plo]>
                       (<["pressure_std" := Num pstd]>
                          (<["pressure_mean" := Num pmean]> timed)))).
Proof.
  intros durations pressures base Hne. unfold _compute_stroke_features.
  rewrite (bool_decide_eq_false_2 _ Hne).
  fold (stroke_durations strokes). fold durations pressures base.
  assert (Hd : exists dmean dstd,
            durations <> [] ->
            np_mean durations = Ok dmean /\ np_std durations = Ok dstd).
  { destruct (decide (durations = [])) as [He|Hd]; [by exists 0, 0|].
    destruct (np_std_Ok _ Hd) as (dstd & Es).
    exists (py_sum durations / len durations), dstd. intros _.
    split; [by apply np_mean_Ok | exact Es]. }
  assert (Hp : exists pmean pstd plo phi,
            pressures <> [] ->
            np_mean pressures = Ok pmean /\ np_std pressures = Ok pstd
            /\ np_min pressures = Ok plo /\ np_max pressures = Ok phi).
  { destruct (decide (pressures = [])) as [He|Hp]; [by exists 0, 0, 0, 0|].
    destruct (np_std_Ok _ Hp) as (pstd & Es).
    destruct (np_min_Ok _ Hp) as (plo & Elo).
    destruct (np_max_Ok _ Hp) as (phi & Ehi).
    exists (py_sum pressures / len pressures), pstd, plo, phi. intros _.
    split; [by apply np_mean_Ok|]. by repeat split. }
  destruct Hd as (dmean & dstd & Hd). destruct Hp as (pmean & pstd & plo & phi & Hp).
  exists dmean, dstd, pmean, pstd, plo, phi.
  split; [exact Hd|]. split; [exact Hp|].
  destruct (decide (durations = [])) as [Hde|Hdn].
  - rewrite !(bool_decide_eq_true_2 _ Hde), bind_Ok.
    destruct (decide (pressures = [])) as [Hpe|Hpn].
    + by rewrite !(bool_decide_eq_true_2 _ Hpe).
    + rewrite !(bool_decide_eq_false_2 _ Hpn).
      destruct (Hp Hpn) as (-> & -> & -> & ->). by rewrite !bind_Ok.
  - rewrite !(bool_decide_eq_false_2 _ Hdn).
    destruct (Hd Hdn) as (-> & ->). rewrite !bind_Ok.
    destruct (decide (pressures = [])) as [Hpe|Hpn].
    + by rewrite !(bool_decide_eq_true_2 _ Hpe).
    + rewrite !(bool_decide_eq_false_2 _ Hpn).
      destruct (Hp Hpn) as (-> & -> & -> & ->). by rewrite !bind_Ok.
Qed.

(** X16.  For a non-empty stroke list [_compute_stroke_features] writes
    exactly: the two counts, [stroke_count] being the number of strokes
    and [total_points] the number of points of all strokes; the three
    duration entries if and only if some stroke has both times; the four
    pressure entries if and only if some point has a pressure. *)
Theorem stroke_features_keys (self : DataLoader) (strokes : list Stroke) :
  strokes <> [] ->
  exists record,
    _compute_stroke_features self strokes = Ok record
    /\ dom record
       = count_keys
         ∪ (if bool_decide (stroke_durations strokes = []) then ∅
            else duration_keys)
         ∪ (if bool_decide (collect_pressures strokes = []) then ∅
            else loader_pressure_keys)
    /\ record !! "stroke_count" = Some (Num (len strokes))
    /\ record !! "total_points"
       = Some (Num (py_sum (map (fun stroke =>
                                   len (default [] (points stroke)))
                                strokes))).
Proof.
  intros Hne.
  destruct (stroke_features_record self strokes Hne)
    as (dmean & dstd & pmean & pstd & plo & phi & _ & _ & ->).
  eexists. split; [reflexivity|]. cbn zeta.
  destruct (bool_decide (stroke_durations strokes = []));
    destruct (bool_decide (collect_pressures strokes = []));
    (split; [rewrite !dom_insert_L, dom_empty_L;
             unfold count_keys, duration_keys, loader_pressure_keys;
             set_solver|]);
    split; vm_compute; reflexivity.
Qed.

(** One stroke of one bare point: the two counts and nothing else. *)
Lemma stroke_features_keys_witness :
  exists record,
    _compute_stroke_features (DataLoader_init [])
      [ {| points := Some [dict [("x", 1); ("y", 2)]];
           startTime := None; endTime := None |} ] = Ok record
    /\ dom record = count_keys ∪ ∅ ∪ ∅
    /\ record !! "stroke_count" = Some (Num 1).
Proof.
  destruct (stroke_features_keys (DataLoader_init [])
              [ {| points := Some [dict [("x", 1); ("y", 2)]];
                   startTime := None; endTime := None |} ])
    as (record & E & Hdom & Hcount & _).
  - discriminate.
  - exists record. split; [exact E|]. split; [exact Hdom | exact Hcount].
Defined.

(** X17.  The loader and the feature engineer compute the statistics they
    share from the same samples: every [stroke_duration_mean] and
    [stroke_duration_std] the loader writes equals the entry of
    [compute_temporal_features], and every [pressure_mean], [pressure_std],
    [pressure_min] and [pressure_max] it writes equals the entry of
    [compute_pressure_features] for the same strokes. *)
Theorem loader_agrees_with_engineer (loader : DataLoader)
    (engineer : FeatureEngineer) (strokes : list Stroke) :
  exists record temporal pressure,
    _compute_stroke_features loader strokes = Ok record
    /\ compute_temporal_features engineer strokes = Ok temporal
    /\ compute_pressure_features engineer strokes = Ok pressure
    /\ entry_agrees record temporal "stroke_duration_mean"
    /\ entry_agrees record temporal "stroke_duration_std"
    /\ entry_agrees record pressure "pressure_mean"
    /\ entry_agrees record pressure "pressure_std"
    /\ entry_agrees record pressure "pressure_min"
    /\ entry_agrees record pressure "pressure_max".
Proof.
  destruct (decide (strokes = [])) as [->|Hne].
  { exists ∅. do 2 eexists. do 3 (split; [reflexivity|]).
    repeat split; intros v Hv; by rewrite lookup_empty in Hv. }
  destruct (stroke_features_record loader strokes Hne)
    as (dmean & dstd & pmean & pstd & plo & phi & Hd & Hp & ->).
  destruct (temporal_record engineer strokes)
    as (dm & ds & dx & pm & ps & px & Edm & Eds & _ & _ & _ & _ & ->).
  cbn zeta.
  destruct (decide (collect_pressures strokes = [])) as [Hpe|Hpn].
  - assert (Epr : compute_pressure_features engineer strokes
                  = Ok (_empty_pressure_features engineer)).
    { unfold compute_pressure_features. by rewrite bool_decide_eq_true_2. }
    rewrite Epr, (bool_decide_eq_true_2 _ Hpe).
    do 3 eexists. do 3 (split; [reflexivity|]).
    destruct (decide (stroke_durations strokes = [])) as [Hde|Hdn].
    + rewrite (bool_decide_eq_true_2 _ Hde).
      repeat split; intros v Hv; vm_compute in Hv; discriminate.
    + rewrite (bool_decide_eq_false_2 _ Hdn).
      destruct (Hd Hdn) as (Em & Es).
      destruct (stroke_durations strokes) as [|d l] eqn:Hl; [done|].
      cbn [if_nonempty] in Edm, Eds.
      rewrite Em in Edm. rewrite Es in Eds.
      injection Edm as <-. injection Eds as <-.
      repeat split; intros v Hv; vm_compute in Hv;
        try discriminate; injection Hv as <-; vm_compute; reflexivity.
  - destruct (compute_pressure_features_Ok engineer strokes Hpn)
      as (m & s & lo & hi & Em' & Es' & Elo' & Ehi' & ->).
    destruct (Hp Hpn) as (Epm & Eps & Eplo & Ephi).
    rewrite Epm in Em'. rewrite Eps in Es'. rewrite Eplo in Elo'.
    rewrite Ephi in Ehi'.
    injection Em' as <-. injection Es' as <-. injection Elo' as <-.
    injection Ehi' as <-.
    rewrite (bool_decide_eq_false_2 _ Hpn).
    do 3 eexists. do 3 (split; [reflexivity|]).
    destruct (decide (stroke_durations strokes = [])) as [Hde|Hdn].
    + rewrite (bool_decide_eq_true_2 _ Hde).
      repeat split; intros v Hv; vm_compute in Hv;
        try discriminate; injection Hv as <-; vm_compute; reflexivity.
    + rewrite (bool_decide_eq_false_2 _ Hdn).
      destruct (Hd Hdn) as (Em & Es).
      destruct (stroke_durations strokes) as [|d l] eqn:Hl; [done|].
      cbn [if_nonempty] in Edm, Eds.
      rewrite Em in Edm. rewrite Es in Eds.
      injection Edm as <-. injection Eds as <-.
      repeat split; intros v Hv; vm_compute in Hv;
        try discriminate; injection Hv as <-; vm_compute; reflexivity.
Qed.

(** ** Drawing time and pause time *)

Lemma py_max_zero_nonneg (x : Q) : 0 <= x -> py_max 0 x == x.
Proof.
  intros Hx. destruct (py_max_cases 0 x) as [[-> Hle]|[-> _]]; lra.
Qed.

Lemma consecutive_pauses_cons (prev curr : Stroke) (l : list Stroke) :
  consecutive_pauses (prev :: curr :: l)
  = match endTime prev, startTime curr with
    | Some stop, Some start =>
        py_max 0 (start - stop) :: consecutive_pauses (curr :: l)
    | _, _ => consecutive_pauses (curr :: l)
    end.
Proof. reflexivity. Qed.

Lemma well_timed_span (strokes : list Stroke) :
  forall first rest last_stroke t0 t1,
    well_timed strokes ->
    strokes = first :: rest ->
    last strokes = Some last_stroke ->
    startTime first = Some t0 ->
    endTime last_stroke = Some t1 ->
    py_sum (stroke_durations strokes) + py_sum (consecutive_pauses strokes)
    == t1 - t0.
Proof.
  induction strokes as [|s l IH]; intros first rest last_stroke t0 t1
    Hwell Hshape Hlast Hstart Hstop; [discriminate|].
  injection Hshape as <- <-.
  destruct Hwell as ((a & b & Ha & Hb) & Hnext & Hrest).
  rewrite Hstart in Ha. injection Ha as <-.
  rewrite stroke_durations_flat_map. cbn [flat_map]. rewrite Hstart, Hb.
  rewrite <- stroke_durations_flat_map. cbn [app].
  destruct l as [|c r].
  - cbn in Hlast. injection Hlast as <-. rewrite Hb in Hstop.
    injection Hstop as <-. cbn. lra.
  - pose proof Hrest as ((a' & b' & Ha' & Hb') & _).
    specialize (Hnext b a' Hb Ha').
    change (last (s :: c :: r)) with (last (c :: r)) in Hlast.
    specialize (IH c r last_stroke a' t1 Hrest eq_refl Hlast Ha' Hstop).
    rewrite consecutive_pauses_cons, Hb, Ha'.
    rewrite !py_sum_cons.
    rewrite (py_max_zero_nonneg (a' - b)) by lra. lra.
Qed.

(** X18.  When every stroke carries both times and no stroke starts before
    the one before it ends, no pause is clamped: the [total_pause_time] of
    the temporal extractor and the [total_drawing_time] of the loader add
    up to the span from the first stroke's start to the last stroke's
    end. *)
Theorem pause_and_drawing_time_span (loader : DataLoader)
    (engineer : FeatureEngineer) (strokes : list Stroke)
    (first last_stroke : Stroke) (rest : list Stroke) (t0 t1 : Q) :
  well_timed strokes ->
  strokes = first :: rest ->
  last strokes = Some last_stroke ->
  startTime first = Some t0 ->
  endTime last_stroke = Some t1 ->
  exists features record pause drawing,
    compute_temporal_features engineer strokes = Ok features
    /\ _compute_stroke_features loader strokes = Ok record
    /\ features !! "total_pause_time" = Some pause
    /\ record !! "total_drawing_time" = Some (Num drawing)
    /\ pause + drawing == t1 - t0.
Proof.
  intros Hwell Hshape Hlast Hstart Hstop.
  pose proof (well_timed_span strokes first rest last_stroke t0 t1
                Hwell Hshape Hlast Hstart Hstop) as Hspan.
  assert (Hne : strokes <> []) by (rewrite Hshape; discriminate).
  assert (Hdur : stroke_durations strokes <> []).
  { rewrite Hshape in Hwell |- *. destruct Hwell as ((a & b & Ha & Hb) & _).
    rewrite stroke_durations_flat_map. cbn [flat_map]. rewrite Ha, Hb.
    discriminate. }
  destruct (temporal_record engineer strokes)
    as (dm & ds & dx & pm & ps & px & _ & _ & _ & _ & _ & _ & ->).
  destruct (stroke_features_record loader strokes Hne)
    as (dmean & dstd & pmean & pstd & plo & phi & _ & _ & ->).
  cbn zeta. rewrite (bool_decide_eq_false_2 _ Hdur).
  eexists; eexists.
  exists (py_sum (consecutive_pauses strokes)),
         (py_sum (stroke_durations strokes)).
  split; [reflexivity|]. split; [reflexivity|].
  split; [vm_compute; reflexivity|].
  split; [destruct (bool_decide (collect_pressures strokes = []));
          vm_compute; reflexivity|].
  lra.
Qed.

(** Two strokes, 0 to 200 and 350 to 500: 150 of pause, 350 of drawing. *)
Lemma pause_and_drawing_time_span_witness :
  let later := {| points := None; startTime := Some 350;
                  endTime := Some 500 |} in
  exists features record pause drawing,
    compute_temporal_features FeatureEngineer_init [scenario_stroke; later]
    = Ok features
    /\ _compute_stroke_features (DataLoader_init [])
         [scenario_stroke; later] = Ok record
    /\ features !! "total_pause_time" = Some pause
    /\ record !! "total_drawing_time" = Some (Num drawing)
    /\ pause + drawing == 500 - 0.
Proof.
  intros later.
  refine (pause_and_drawing_time_span (DataLoader_init [])
            FeatureEngineer_init [scenario_stroke; later] scenario_stroke
            later [later] 0 500 _ eq_refl eq_refl eq_refl eq_refl).
  cbn. split; [eauto|]. split.
  - intros stop start [= <-] [= <-]. vm_compute. discriminate.
  - split; [eauto|]. by split.
Defined.

(** ** Loading sessions and building the rows *)

Lemma load_sessions_spec (self : DataLoader) :
  let loaded := sessions self ++ flat_map file_sessions (data_dir self) in
  load_sessions self
  = ({| data_dir := data_dir self; sessions := loaded |}, loaded).
Proof.
  unfold load_sessions.
  assert (H : forall files acc,
            fold_left (fun ss file =>
                         match file with
                         | FileList l => ss ++ l
                         | FileOne s => ss ++ [s]
                         | FileBad => ss
                         end) files acc
            = acc ++ flat_map file_sessions files).
  { induction files as [|f files IH]; intros acc; cbn [fold_left flat_map].
    - by rewrite app_nil_r.
    - rewrite IH. destruct f; cbn [file_sessions];
        by rewrite <- ?app_assoc, ?app_nil_r. }
  cbn zeta. by rewrite H.
Qed.

(** X19.  [load_sessions] appends, to the sessions the loader already
    holds, the sessions of the files in file order: the elements of a JSON
    array in their order, a single session as it is, nothing for a file
    that cannot be read.  It never drops, reorders or resets, so a second
    call appends the files' sessions once more. *)
Theorem load_sessions_appends (self : DataLoader) :
  let found := flat_map file_sessions (data_dir self) in
  let once := load_sessions self in
  let twice := load_sessions (fst once) in
  snd once = sessions self ++ found
  /\ sessions (fst once) = snd once
  /\ data_dir (fst once) = data_dir self
  /\ snd twice = sessions self ++ found ++ found
  /\ sessions (fst twice) = snd twice.
Proof.
  intros found once twice. subst once twice.
  rewrite !load_sessions_spec. cbn [fst snd sessions data_dir].
  rewrite <- app_assoc. by repeat split.
Qed.

Lemma create_dataset_loaded (self : DataLoader) :
  fst (create_dataset self)
  = if bool_decide (sessions self = []) then fst (load_sessions self)
    else self.
Proof. reflexivity. Qed.

(** X20.  [create_dataset] never raises and returns one row per session,
    in order: row [i] is the record [extract_features] returns for session
    [i], the sessions being those the loader holds or, when it holds none,
    those it loads from the files.  Calling it again on the loader it
    leaves returns the same rows and leaves the same loader: the files are
    read at most once unless they hold no session at all. *)
Theorem create_dataset_rows (self : DataLoader) :
  let after := fst (create_dataset self) in
  exists rows,
    create_dataset self = (after, Ok rows)
    /\ Forall2 (fun session row => extract_features self session = Ok row)
               (sessions after) rows
    /\ length rows = length (sessions after)
    /\ sessions after
       = (if bool_decide (sessions self = [])
          then flat_map file_sessions (data_dir self) else sessions self)
    /\ data_dir after = data_dir self
    /\ create_dataset after = (after, Ok rows).
Proof.
  intros after.
  assert (Hrun : forall loader : DataLoader,
            exists rows,
              snd (create_dataset loader) = Ok rows
              /\ Forall2 (fun session row =>
                            extract_features self session = Ok row)
                         (sessions (fst (create_dataset loader))) rows).
  { intros loader. unfold create_dataset. cbn [fst snd].
    match goal with |- context [for_each _ (sessions ?l) []] =>
      destruct (create_dataset_loop l self (sessions l)) as (rows & E & Hall)
    end.
    exists rows. by split. }
  destruct (Hrun self) as (rows & E & Hrows). fold after in Hrows.
  assert (Hlen : length rows = length (sessions after)).
  { symmetry. by eapply Forall2_length. }
  exists rows.
  assert (Hfull : create_dataset self = (after, Ok rows)).
  { rewrite <- E. unfold after. by destruct (create_dataset self). }
  split; [exact Hfull|]. split; [exact Hrows|]. split; [exact Hlen|].
  assert (Hsess : sessions after
                  = (if bool_decide (sessions self = [])
                     then flat_map file_sessions (data_dir self)
                     else sessions self)
                  /\ data_dir after = data_dir self).
  { unfold after. rewrite create_dataset_loaded.
    case_bool_decide as Hs; [|done].
    rewrite load_sessions_spec. cbn [fst sessions data_dir]. by rewrite Hs. }
  destruct Hsess as [Hsess Hdir]. split; [exact Hsess|]. split; [exact Hdir|].
  assert (Hfix : fst (create_dataset after) = after).
  { rewrite create_dataset_loaded.
    destruct (decide (sessions after = [])) as [Ha|Ha];
      [rewrite (bool_decide_eq_true_2 _ Ha)
      | by rewrite (bool_decide_eq_false_2 _ Ha)].
    rewrite load_sessions_spec. cbn [fst]. rewrite Ha. cbn [app].
    assert (Hnone : flat_map file_sessions (data_dir self) = []).
    { rewrite Ha in Hsess.
      destruct (decide (sessions self = [])) as [Hs|Hs].
      - by rewrite (bool_decide_eq_true_2 _ Hs) in Hsess.
      - rewrite (bool_decide_eq_false_2 _ Hs) in Hsess. by destruct Hs. }
    rewrite Hdir, Hnone. clear -Ha Hdir.
    destruct after as [d s]. cbn in *. by subst. }
  rewrite <- Hfix at 2.
  transitivity (fst (create_dataset after), snd (create_dataset after));
    [by destruct (create_dataset after)|].
  f_equal. rewrite <- E.
  unfold create_dataset. cbn [snd]. fold (create_dataset after).
  change (if bool_decide (sessions after = []) then fst (load_sessions after)
          else after) with (fst (create_dataset after)).
  rewrite Hfix. unfold after. reflexivity.
Qed.

(** Two files, one holding a list of two sessions and one a single
    session: three rows, the records of the three sessions in file
    order. *)
Lemma create_dataset_rows_witness :
  exists r1 r2 r3,
    snd (create_dataset
           (DataLoader_init [FileList [scenario_session; empty_session];
                             FileBad; FileOne sparse_session]))
    = Ok [r1; r2; r3]
    /\ extract_features (DataLoader_init []) scenario_session = Ok r1
    /\ extract_features (DataLoader_init []) empty_session = Ok r2
    /\ extract_features (DataLoader_init []) sparse_session = Ok r3.
Proof.
  destruct (create_dataset_rows
              (DataLoader_init [FileList [scenario_session; empty_session];
                                FileBad; FileOne sparse_session]))
    as (rows & E & Hrows & _ & Hsess & _).
  rewrite E. cbn [snd].
  rewrite Hsess in Hrows. cbn in Hrows.
  inversion Hrows as [|s1 r1 ss1 rs1 H1 Hrest1]; subst.
  inversion Hrest1 as [|s2 r2 ss2 rs2 H2 Hrest2]; subst.
  inversion Hrest2 as [|s3 r3 ss3 rs3 H3 Hrest3]; subst.
  inversion Hrest3; subst.
  exists r1, r2, r3. by repeat split.
Defined.

(** ** Short strokes among others *)

Lemma kinematic_stroke_short (stroke : Stroke) (acc : KinematicLists) :
  (point_count stroke < 2)%nat -> kinematic_stroke stroke acc = Ok acc.
Proof.
  intros Hshort. unfold kinematic_stroke. fold (point_count stroke).
  apply Nat.ltb_lt in Hshort. by rewrite Hshort.
Qed.

(** X21.  A stroke with fewer than two points is skipped by the kinematic
    extractor wherever it stands: removing it from the stroke list leaves
    the kinematic record unchanged. *)
Theorem kinematic_skips_short_stroke (self : FeatureEngineer)
    (before after : list Stroke) (short : Stroke) :
  (point_count short < 2)%nat ->
  compute_kinematic_features self (before ++ short :: after)
  = compute_kinematic_features self (before ++ after).
Proof.
  intros Hshort.
  destruct (decide (before ++ after = [])) as [Hnil|Hne].
  - apply app_eq_nil in Hnil as [-> ->]. cbn [app].
    rewrite compute_kinematic_features_short
      by (constructor; [exact Hshort | constructor]).
    reflexivity.
  - unfold compute_kinematic_features.
    rewrite (bool_decide_eq_false_2 _ Hne).
    rewrite bool_decide_eq_false_2 by (by destruct before).
    rewrite !for_each_app. cbn [for_each].
    destruct (for_each kinematic_stroke before _) as [acc|e]; [|reflexivity].
    rewrite !bind_Ok. by rewrite (kinematic_stroke_short short acc Hshort).
Qed.

(** A one-point stroke between two copies of the reference stroke. *)
Lemma kinematic_skips_short_stroke_witness :
  compute_kinematic_features FeatureEngineer_init
    ([scenario_stroke]
     ++ {| points := Some [point 9 9 300 0.5]; startTime := Some 300;
           endTime := Some 300 |} :: [scenario_stroke])
  = compute_kinematic_features FeatureEngineer_init
      ([scenario_stroke] ++ [scenario_stroke]).
Proof.
  apply kinematic_skips_short_stroke. cbn. lia.
Defined.
